(** * notify-free-gpu: a shallow embedding of [notify.py]

    The bot polls the GPUs of a shared machine, broadcasts a report to a
    whitelist of Telegram chats whenever the occupancy labels change, and
    lets whitelisted users occupy or release GPU memory through chat
    commands.  This file embeds the functions of [notify.py] as Rocq
    functions and proves properties of them.

    Conventions of the embedding:
    - Python [int] is [Z]; Python [float] (IEEE-754 binary64) is the exact
      rational value of the double, every operation being the exact
      operation followed by rounding to the nearest double, ties to even
      ([PyFloat.round53]);
    - [str] is [string] (UTF-8 bytes); [dict] is [gmap]; [list] is [list];
    - a handler is a function from the bot's state to an outcome (returned
      or raised), the state it leaves behind and the effects it performed,
      in order. *)

From Stdlib Require Import ZArith QArith Qround Lia String Ascii List Bool.
From stdpp Require Import base tactics option list gmap strings pretty.

Local Open Scope Z_scope.

(** ** Binary64 arithmetic on exact rationals *)

Module PyFloat.

(** Python's [round(x)] on a float returns the nearest integer, ties going
    to the even one.  [rne n d] is that integer for the rational [n/d],
    [0 < d]. *)
Definition rne (n d : Z) : Z :=
  let f := n / d in
  match (2 * (n mod d)) ?= d with
  | Lt => f
  | Eq => if Z.even f then f else f + 1
  | Gt => f + 1
  end.

(** [flog2 n d] is the binary exponent of [n/d]: the [e] with
    [2^e <= n/d < 2^(e+1)], for [0 < n] and [0 < d]. *)
Definition flog2 (n d : Z) : Z :=
  let k := Z.log2 n - Z.log2 d in
  if d * 2 ^ Z.max 0 k <=? n * 2 ^ Z.max 0 (- k) then k else k - 1.

(** The significand of a double has 53 bits. *)
Definition prec : Z := 53.

(** [2^s] as a rational, for any integer [s]. *)
Definition pow2Q (s : Z) : Q :=
  Qmake (2 ^ Z.max 0 s) (Z.to_pos (2 ^ Z.max 0 (- s))).

(** Nearest double to the positive rational [n/d]: scale the value into
    [[2^52, 2^53)], round to an integer, scale back. *)
Definition round53_pos (n d : Z) : Q :=
  let s := flog2 n d - (prec - 1) in
  let m := rne (n * 2 ^ Z.max 0 (- s)) (d * 2 ^ Z.max 0 s) in
  Qmake (m * 2 ^ Z.max 0 s) (Z.to_pos (2 ^ Z.max 0 (- s))).

(** Nearest double to any rational (the magnitudes of this program stay
    far inside the normal range of binary64, so neither overflow nor
    gradual underflow is modelled). *)
Definition round53 (q : Q) : Q :=
  match Qnum q with
  | Z0 => 0%Q
  | Zpos _ => round53_pos (Qnum q) (Zpos (Qden q))
  | Zneg _ => Qopp (round53_pos (- Qnum q) (Zpos (Qden q)))
  end.

(** [float(i)] for an [int]. *)
Definition of_int (i : Z) : Q := round53 (inject_Z i).

(** A decimal literal [n/d] of the source text. *)
Definition literal (n : Z) (d : positive) : Q := round53 (Qmake n d).

(** [a / b] on two [int]s: the correctly rounded quotient; [None] is
    [ZeroDivisionError].  [truediv_pos] is the division by a positive
    constant. *)
Definition truediv_pos (a : Z) (p : positive) : Q := round53 (Qmake a p).

Definition truediv (a b : Z) : option Q :=
  match b with
  | Z0 => None
  | Zpos p => Some (truediv_pos a p)
  | Zneg p => Some (truediv_pos (- a) p)
  end.

(** [x * y] on two floats. *)
Definition mul (x y : Q) : Q := round53 (Qmult x y).

(** [round(x)] *)
Definition round (x : Q) : Z := rne (Qnum x) (Zpos (Qden x)).

(** [int(x)]: truncation towards zero. *)
Definition to_int (x : Q) : Z := Z.quot (Qnum x) (Zpos (Qden x)).

(** [x > i] for a float [x] and an [int] [i] (Python compares the exact
    values). *)
Definition gtb_int (x : Q) (i : Z) : bool :=
  negb (Qle_bool x (inject_Z i)).

End PyFloat.

(** ** Exceptions, results and effects *)

(** The exceptions that the calls of [notify.py] can raise.  [Unauthorized]
    is [telegram.error.Unauthorized]; [TelegramError] stands for the other
    errors of the transport (network failure, timeout, bad request);
    [NVMLError] is raised by [pynvml], [ProcessError] by [psutil] (a process
    that is gone or may not be inspected), [CudaAPIError] by [numba.cuda]. *)
Inductive exn :=
| ValueError (msg : string)
| ZeroDivisionError
| NVMLError (msg : string)
| ProcessError (msg : string)
| CudaAPIError
| Unauthorized
| TelegramError (msg : string).

(** The text of [traceback.format_exc()]: only its last line, the exception
    and its message, is modelled. *)
Definition format_exc (e : exn) : string :=
  match e with
  | ValueError m => "ValueError: " +:+ m
  | ZeroDivisionError => "ZeroDivisionError: division by zero"
  | NVMLError m => "pynvml.NVMLError: " +:+ m
  | ProcessError m => "psutil.Error: " +:+ m
  | CudaAPIError => "numba.cuda.cudadrv.driver.CudaAPIError"
  | Unauthorized => "telegram.error.Unauthorized"
  | TelegramError m => "telegram.error.TelegramError: " +:+ m
  end.

Inductive result (A : Type) :=
| Ret (a : A)
| Raise (e : exn).
Arguments Ret {A} a.
Arguments Raise {A} e.

#[global] Instance result_ret : MRet result := @Ret.
#[global] Instance result_bind : MBind result := λ A B f r,
  match r with
  | Ret a => f a
  | Raise e => Raise e
  end.

#[global] Instance result_fmap : FMap result := λ A B f r,
  match r with
  | Ret a => Ret (f a)
  | Raise e => Raise e
  end.

(** What the bot does to the outside world, in the order it does it. *)
Inductive effect :=
| ReplyText (text : string) (markdown : bool)
    (* update.message.reply_text(text[, parse_mode=MARKDOWN]) *)
| SendMessage (chat_id : Z) (text : string) (markdown : bool)
    (* self._updater.bot.send_message(chat_id, text[, parse_mode=MARKDOWN]) *)
| Print (text : string)
| Sleep (seconds : Z)
| SelectDevice (gid : Z)          (* cuda.select_device(gid) *)
| ResetDevice (gid : Z)           (* cuda.select_device(gid).reset() *)
| DeviceArray (nbytes : Z).       (* cuda.device_array((nbytes,), dtype="byte") *)

(** ** The environment: driver, allocator, transport *)

(** [pynvml.nvmlDeviceGetMemoryInfo(handle)], in bytes. *)
Record memory_info := { total : Z; used : Z; free : Z }.

(** What the driver answers for one device handle. *)
Record handle := {
  nvmlDeviceGetMemoryInfo : result memory_info;
  nvmlDeviceGetComputeRunningProcesses : result (list Z)   (* the pids *)
}.

(** [psutil.Process(pid)]: [username()] and [cmdline()]. *)
Record process := { username : string; cmdline : list string }.

(** An allocated block of device memory. *)
Record device_array := { nbytes : Z }.

(** Everything outside the bot at one moment.  [cuda_device_array k n] is
    the outcome of the [k]-th allocation ([k = 0, 1, 2]) of one [/occ]
    command, asking for [n] bytes. *)
Record world := {
  nvmlDeviceGetCount : result Z;
  nvmlDeviceGetHandleByIndex : Z → result handle;
  Process : Z → result process;
  cuda_device_array : nat → Z → result device_array;
  send_message : Z → string → bool → result unit;
  strftime : string                    (* time.strftime('%Y-%m-%d %H:%M:%S') *)
}.

(** ** The bot *)

(** The attributes of [NotifyBot] that the handlers use. *)
Record bot := {
  _whitelist : list Z;
  cuda_buffers : gmap Z device_array;
  interval : Z
}.

(** The incoming message: who sent it. *)
Record update := { from_user_id : Z; from_user_username : string }.

(** A piece of the bot's code: from the state before to the outcome, the
    state after and the effects performed.  A raised exception keeps the
    state and the effects reached so far, as in Python. *)
Definition Bot (A : Type) : Type := bot → result A * bot * list effect.

#[global] Instance Bot_ret : MRet Bot := λ A a s, (Ret a, s, []).
#[global] Instance Bot_bind : MBind Bot := λ A B f m s,
  match m s with
  | (Ret a, s1, t1) =>
      match f a s1 with
      | (r, s2, t2) => (r, s2, t1 ++ t2)
      end
  | (Raise e, s1, t1) => (Raise e, s1, t1)
  end.

Definition lift {A} (r : result A) : Bot A := λ s, (r, s, []).
Definition raise {A} (e : exn) : Bot A := lift (Raise e).
Definition emit (e : effect) : Bot unit := λ s, (Ret tt, s, [e]).
Definition get : Bot bot := λ s, (Ret s, s, []).
Definition put (s' : bot) : Bot unit := λ _, (Ret tt, s', []).

Definition reply_text (text : string) : Bot unit := emit (ReplyText text false).
Definition reply_markdown (text : string) : Bot unit := emit (ReplyText text true).
Definition print (text : string) : Bot unit := emit (Print text).

(** [try: m except: h], for the exceptions that [catches] selects. *)
Definition try_except {A} (m : Bot A) (catches : exn → bool) (h : exn → Bot A)
  : Bot A := λ s,
  match m s with
  | (Ret a, s1, t1) => (Ret a, s1, t1)
  | (Raise e, s1, t1) =>
      if catches e then
        match h e s1 with
        | (r, s2, t2) => (r, s2, t1 ++ t2)
        end
      else (Raise e, s1, t1)
  end.

Definition outcome {A} (x : result A * bot * list effect) : result A := x.1.1.
Definition final {A} (x : result A * bot * list effect) : bot := x.1.2.
Definition effects {A} (x : result A * bot * list effect) : list effect := x.2.

(** The texts sent back to the requester, in order. *)
Definition replies (t : list effect) : list string :=
  omap (λ e, match e with ReplyText text _ => Some text | _ => None end) t.

(** The chats that [send_message] was called for, in order. *)
Definition sends (t : list effect) : list (Z * string * bool) :=
  omap (λ e, match e with
             | SendMessage c text md => Some (c, text, md)
             | _ => None
             end) t.

Definition nl : string := String "010" EmptyString.

(** ** Built-ins of Python that the handlers call *)

(** [int(token)] on a [str]: optional blanks around, an optional sign,
    decimal digits with single underscores between them; anything else
    raises [ValueError].  Tokens are taken to be ASCII: the decimal digits
    of other scripts, which Python accepts too, are not modelled. *)
Module PyInt.

Definition is_digit (c : ascii) : bool :=
  let n := N_of_ascii c in ((48 <=? n) && (n <=? 57))%N.

Definition is_space (c : ascii) : bool :=
  let n := N_of_ascii c in
  (((9 <=? n) && (n <=? 13)) || ((28 <=? n) && (n <=? 32)))%N.

Definition digit_value (c : ascii) : Z := Z.of_N (N_of_ascii c) - 48.

(** The digits after the first one: [acc] is the value read so far,
    [after_digit] tells whether the previous character was a digit (an
    underscore must sit between two digits). *)
Fixpoint digits (acc : Z) (after_digit : bool) (l : list ascii) : option Z :=
  match l with
  | [] => if after_digit then Some acc else None
  | c :: l' =>
      if is_digit c then digits (10 * acc + digit_value c) true l'
      else if (Ascii.eqb c "_" && after_digit)%bool then digits acc false l'
      else None
  end.

Fixpoint lstrip (l : list ascii) : list ascii :=
  match l with
  | c :: l' => if is_space c then lstrip l' else l
  | [] => []
  end.

Definition strip (l : list ascii) : list ascii :=
  rev (lstrip (rev (lstrip l))).

Definition parse (l : list ascii) : option Z :=
  match strip l with
  | "-"%char :: l' => Z.opp <$> digits 0 false l'
  | "+"%char :: l' => digits 0 false l'
  | l' => digits 0 false l'
  end.

End PyInt.

Definition py_int (token : string) : result Z :=
  match PyInt.parse (list_ascii_of_string token) with
  | Some z => Ret z
  | None =>
      Raise (ValueError ("invalid literal for int() with base 10: '"
                         +:+ token +:+ "'"))
  end.

(** [format(x, spec)] on a [float], as an f-string field [{x:spec}] calls
    it.  The standard format specifier is
    [[[fill]align][sign][#][0][width][grouping][.precision][type]];
    a specifier that does not parse raises [ValueError]. *)
Module PyFormat.

Record format_spec := {
  fill : option ascii;
  align : option ascii;
  sign : option ascii;
  alternate : bool;
  zero : bool;
  width : option Z;
  grouping : option ascii;
  precision : option Z;
  type : option ascii
}.

Definition is_align (c : ascii) : bool :=
  existsb (Ascii.eqb c) ["<"; ">"; "="; "^"]%char.

Definition is_sign (c : ascii) : bool :=
  existsb (Ascii.eqb c) ["+"; "-"; " "]%char.

(** A run of decimal digits: its value (if any digit) and the rest. *)
Fixpoint get_integer (acc : option Z) (l : list ascii)
  : option Z * list ascii :=
  match l with
  | c :: l' =>
      if PyInt.is_digit c
      then get_integer (Some (10 * default 0 acc + PyInt.digit_value c)) l'
      else (acc, l)
  | [] => (acc, [])
  end.

Definition parse_fill_align (l : list ascii)
  : option ascii * option ascii * list ascii :=
  match l with
  | f :: a :: l' =>
      if is_align a then (Some f, Some a, l')
      else if is_align f then (None, Some f, a :: l')
      else (None, None, l)
  | [a] => if is_align a then (None, Some a, []) else (None, None, l)
  | [] => (None, None, [])
  end.

Definition parse_flag (p : ascii → bool) (l : list ascii)
  : option ascii * list ascii :=
  match l with
  | c :: l' => if p c then (Some c, l') else (None, l)
  | [] => (None, [])
  end.

(** The presentation types of a float. *)
Definition float_type (c : ascii) : bool :=
  existsb (Ascii.eqb c) ["e"; "E"; "f"; "F"; "g"; "G"; "n"; "%"]%char.

Definition parse (spec : list ascii) : option format_spec :=
  let '(fl, al, l) := parse_fill_align spec in
  let '(sg, l) := parse_flag is_sign l in
  let '(alt, l) := parse_flag (Ascii.eqb "#") l in
  let '(zr, l) :=
    match fl with
    | Some _ => (None, l)
    | None => parse_flag (Ascii.eqb "0") l
    end in
  let '(wd, l) := get_integer None l in
  let '(comma, l) := parse_flag (Ascii.eqb ",") l in
  let '(under, l) := parse_flag (Ascii.eqb "_") l in
  match comma, under with
  | Some _, Some _ => None      (* cannot specify both ',' and '_' *)
  | _, _ =>
      match parse_flag (Ascii.eqb ",") l with
      | (Some _, _) => None     (* ',' after '_' *)
      | (None, _) =>
      let prec_rest :=
        match l with
        | "."%char :: l' =>
            match get_integer None l' with
            | (Some p, l'') => Some (Some p, l'')
            | (None, _) => None     (* format specifier missing precision *)
            end
        | _ => Some (None, l)
        end in
      match prec_rest with
      | None => None
      | Some (pr, l) =>
          let ty :=
            match l with
            | [] => Some None
            | [c] => if float_type c then Some (Some c) else None
            | _ => None             (* more than one character remains *)
            end in
          match ty with
          | None => None
          | Some ty =>
              Some {| fill := fl; align := al; sign := sg;
                      alternate := bool_decide (is_Some alt);
                      zero := bool_decide (is_Some zr); width := wd;
                      grouping := match comma with
                                  | Some c => Some c
                                  | None => under
                                  end;
                      precision := pr; type := ty |}
          end
      end
      end
  end.

(** Fixed-point rendering of [x] with [p] digits after the point, the
    decimal being the nearest one to [x], ties to even.  This is the only
    rendering that a specifier of the source could ask for; fill, width
    and grouping are parsed but not rendered. *)
Definition fixed (x : Q) (p : Z) : string :=
  let scaled := PyFloat.rne (Qnum x * 10 ^ p) (Zpos (Qden x)) in
  let a := Z.abs scaled in
  let digits := pretty (a mod 10 ^ p) in
  let pad :=
    String.concat "" (replicate (Z.to_nat p - String.length digits)%nat "0") in
  (if Qnum x <? 0 then "-" else "")
  +:+ pretty (a / 10 ^ p)
  +:+ (if p =? 0 then "" else "." +:+ pad +:+ digits).

Definition format_float (x : Q) (spec : string) : result string :=
  match parse (list_ascii_of_string spec) with
  | None => Raise (ValueError "Invalid format specifier")
  | Some fs => Ret (fixed x (default 6 (precision fs)))
  end.

End PyFormat.

(** ** The functions of [notify.py] *)

Fixpoint repeat_string (s : string) (n : nat) : string :=
  match n with
  | O => ""
  | S n' => s +:+ repeat_string s n'
  end.

(** [range(a, b)] runs [b - a] times, and not at all when [b <= a]. *)
Definition range_len (a b : Z) : nat := Z.to_nat (b - a).

(** [pbar(current, maximum, size)] (lines 15-23). *)
Definition pbar_sep (current maximum size : Z) : result Z :=
  match PyFloat.truediv current maximum with
  | None => Raise ZeroDivisionError
  | Some x => Ret (PyFloat.round (PyFloat.mul x (PyFloat.of_int size)))
  end.

Definition pbar (current maximum size : Z) : result string :=
  sep ← pbar_sep current maximum size;
  Ret ("`|" +:+ repeat_string "#" (range_len 0 (sep + 1))
            +:+ repeat_string " " (range_len (sep + 1) size)
            +:+ "|`").

(** The number of filled segments of a bar. *)
Definition filled (bar : string) : nat :=
  length (filter (λ c, c = "#"%char) (list_ascii_of_string bar)).

(** [get_user_info(handle)] (lines 26-31). *)
Definition get_user_info (w : world) (h : handle)
  : result (list (string * string)) :=
  pids ← nvmlDeviceGetComputeRunningProcesses h;
  procs ← mapM (Process w) pids;
  Ret ((λ proc, (username proc, String.concat " " (cmdline proc))) <$> procs).

(** [get_usage_msg(gpu_id, handle)] (lines 34-44). *)
Definition get_usage_msg (w : world) (gpu_id : Z) (h : handle) : result string :=
  info ← nvmlDeviceGetMemoryInfo h;
  let used_gb := PyFloat.truediv_pos (used info) (1024 ^ 3) in
  let total_gb := PyFloat.truediv_pos (total info) (1024 ^ 3) in
  used_txt ← PyFormat.format_float used_gb ".0f";
  total_txt ← PyFormat.format_float total_gb ".0f";
  bar ← pbar (used info) (total info) 24;
  let msg := "GPU " +:+ pretty gpu_id +:+ " usage is " +:+ used_txt +:+ " / "
             +:+ total_txt +:+ " GB" +:+ nl +:+ bar +:+ nl in
  uinfos ← get_user_info w h;
  let msg :=
    foldl (λ msg '(name, cmd), msg +:+ "😈 " +:+ name +:+ ": `" +:+ cmd +:+ "`" +:+ nl)
          msg uinfos in
  Ret (match uinfos with
       | [] => msg +:+ "👻 Type `/occ " +:+ pretty gpu_id
                   +:+ "` to occupy the GPU" +:+ nl
       | _ => msg
       end).

(** The reply to a caller who is not on the whitelist. *)
Definition not_whitelisted (user_id : Z) : string :=
  "You are not yet on the whitelist. "
  +:+ "Add " +:+ pretty user_id +:+ " to your config to receive notifications from me".

(** [user_id in self._whitelist] *)
Definition whitelisted (s : bot) (user_id : Z) : bool :=
  bool_decide (user_id ∈ _whitelist s).

Definition invalid_gpu_id (count : Z) : string :=
  "Invalid GPU ID. Must be between 0 and " +:+ pretty (count - 1).

(** The size in GB as the replies of [/occ] show it:
    [{to_alloc / (1024**3):f.1}]. *)
Definition format_gb (to_alloc : Z) : result string :=
  PyFormat.format_float (PyFloat.truediv_pos to_alloc (1024 ^ 3)) "f.1".

(** [int(to_alloc * c)] for a float literal [c]. *)
Definition scale (to_alloc : Z) (c : Q) : Z :=
  PyFloat.to_int (PyFloat.mul (PyFloat.of_int to_alloc) c).

(** The loop [for _ in range(3): try: ... break except CudaAPIError: ...]
    of [_occupy] (lines 128-139), with [n] rounds left; [k] counts the
    allocations made so far. *)
Fixpoint occupy_loop (w : world) (gid : Z) (n k : nat) (to_alloc : Z) : Bot unit :=
  match n with
  | O => mret tt
  | S n' =>
      emit (DeviceArray to_alloc);;
      match cuda_device_array w k to_alloc with
      | Ret buffer =>
          s ← get;
          put {| _whitelist := _whitelist s;
                 cuda_buffers := <[gid := buffer]> (cuda_buffers s);
                 interval := interval s |};;
          gb ← lift (format_gb to_alloc);
          reply_text ("Allocated " +:+ gb +:+ "GB on GPU " +:+ pretty gid)
      | Raise CudaAPIError =>
          gb ← lift (format_gb to_alloc);
          reply_text ("Could not allocate " +:+ gb +:+ "GB on GPU " +:+ pretty gid
                      +:+ ". Trying again with 80% of the memory");;
          occupy_loop w gid n' (S k) (scale to_alloc (PyFloat.literal 8 10))
      | Raise e => raise e
      end
  end.

(** [gid < 0 or gid >= pynvml.nvmlDeviceGetCount()] *)
Definition out_of_range (w : world) (gid : Z) : result bool :=
  if gid <? 0 then Ret true
  else count ← nvmlDeviceGetCount w; Ret (gid >=? count).

(** [NotifyBot._occupy] (lines 101-139). *)
Definition _occupy (w : world) (upd : update) (args : list string) : Bot unit :=
  let user_id := from_user_id upd in
  s ← get;
  if negb (whitelisted s user_id) then
    reply_text (not_whitelisted user_id)
  else
    print (from_user_username upd +:+ " tries to occupy some resources");;
    match args with
    | [arg] =>
        gid ← lift (py_int arg);
        bad ← lift (out_of_range w gid);
        if (bad : bool) then
          count ← lift (nvmlDeviceGetCount w);
          reply_text (invalid_gpu_id count)
        else
          h ← lift (nvmlDeviceGetHandleByIndex w gid);
          info ← lift (nvmlDeviceGetMemoryInfo h);
          let to_alloc := scale (free info) (PyFloat.literal 95 100) in
          emit (SelectDevice gid);;
          occupy_loop w gid 3 0 to_alloc
    | _ =>
        print "Invalid usage of /occ";;
        reply_text "Usage: /occ <gpu_id>"
    end.

Definition rel_usage : string :=
  "Usage: /rel <gpu_id> to release <gpu_id> or simply /rel to release all".

(** [NotifyBot._set_interval] (lines 142-165). *)
Definition _set_interval (w : world) (upd : update) (args : list string) : Bot unit :=
  let user_id := from_user_id upd in
  s ← get;
  if negb (whitelisted s user_id) then
    reply_text (not_whitelisted user_id)
  else
    print (from_user_username upd +:+ " tries to set the interval");;
    match args with
    | [arg] =>
        new_interval ← lift (py_int arg);
        if (new_interval <? 1) || (new_interval >? 60 * 60) then
          reply_text "Interval must be between 1s and 3600s"
        else
          put {| _whitelist := _whitelist s;
                 cuda_buffers := cuda_buffers s;
                 interval := new_interval |};;
          reply_text ("Interval set to " +:+ pretty new_interval +:+ "s")
    | _ =>
        print "Invalid usage of /rel";;
        reply_text rel_usage
    end.

(** The body of [for gid in to_release] of [_release] (lines 195-201). *)
Definition release_one (gid : Z) : Bot unit :=
  s ← get;
  match cuda_buffers s !! gid with
  | None => reply_text ("GPU " +:+ pretty gid +:+ " is not occupied")
  | Some _ =>
      put {| _whitelist := _whitelist s;
             cuda_buffers := delete gid (cuda_buffers s);
             interval := interval s |};;
      emit (SelectDevice gid);;
      emit (ResetDevice gid);;
      reply_text ("Released GPU " +:+ pretty gid)
  end.

Fixpoint release_all (to_release : list Z) : Bot unit :=
  match to_release with
  | [] => mret tt
  | gid :: rest => release_one gid;; release_all rest
  end.

(** [list(range(n))] *)
Definition py_range (n : Z) : list Z := Z.of_nat <$> seq 0 (Z.to_nat n).

(** [NotifyBot._release] (lines 168-201). *)
Definition _release (w : world) (upd : update) (args : list string) : Bot unit :=
  let user_id := from_user_id upd in
  s ← get;
  if negb (whitelisted s user_id) then
    reply_text (not_whitelisted user_id)
  else
    print (from_user_username upd +:+ " tries to release some resources");;
    match args with
    | _ :: _ :: _ =>
        print "Invalid usage of /rel";;
        reply_text rel_usage
    | [] =>
        count ← lift (nvmlDeviceGetCount w);
        release_all (py_range count)
    | [arg] =>
        gid ← lift (py_int arg);
        bad ← lift (out_of_range w gid);
        (if (bad : bool) then
           count ← lift (nvmlDeviceGetCount w);
           reply_text (invalid_gpu_id count)
         else mret tt);;
        release_all [gid]
    end.

(** [NotifyBot._register] (lines 79-90). *)
Definition _register (upd : update) : Bot unit :=
  let user_id := from_user_id upd in
  s ← get;
  if negb (whitelisted s user_id) then
    reply_text (not_whitelisted user_id)
  else
    reply_text ("Hi! I will notify you when someone starts "
                +:+ "to use the GPU and when it's available again").

(** [NotifyBot._echo] (lines 92-98). *)
Definition _echo (upd : update) (args : list string) : Bot unit :=
  print (from_user_username upd +:+ " requested echo");;
  match args with
  | [arg] => reply_text arg
  | _ => print "Invalid usage of /echo";; reply_text "Usage: /echo <anything>"
  end.

(** The marker appended to a user name (lines 220-234). *)
Definition decorate (user : string) : string :=
  if String.eqb user "chunqiu2" then user +:+ "🐍"
  else if String.eqb user "ywei40" then user +:+ "💩"
  else if String.eqb user "yifeng6" then user +:+ "🐝"
  else if String.eqb user "shizhuo2" then user +:+ "🎡"
  else if String.eqb user "yinlind2" then user +:+ "🌲"
  else if String.eqb user "cy54" then user +:+ "🎣"
  else user +:+ "💸".

Definition AVAILABLE : string := "🚀AVAILABLE".
Definition OCCUPIED (users : list string) : string :=
  "🤡OCCUPIED by " +:+ String.concat ", " users.

(** The label of one device: the body of the loop of [_query_once]
    (lines 215-237). *)
Definition gpu_state (w : world) (h : handle) : result string :=
  info ← nvmlDeviceGetMemoryInfo h;
  let used_gb := PyFloat.truediv_pos (used info) (1024 ^ 3) in
  let thresh_gb := 1 in
  if PyFloat.gtb_int used_gb thresh_gb then
    uinfos ← get_user_info w h;
    Ret (OCCUPIED (decorate <$> (fst <$> uinfos)))
  else Ret AVAILABLE.

(** The report built from the labels (lines 238-240). *)
Definition report (now : string) (new_states : list string) : string :=
  "# New GPU Status at " +:+ now +:+ nl
  +:+ String.concat ""
        (imap (λ i state, "* GPU #" +:+ pretty (Z.of_nat i) +:+ ": "
                          +:+ state +:+ nl) new_states).

(** [NotifyBot._query_once] (lines 212-241). *)
Definition _query_once (w : world) (handles : list handle)
  : result (list string * string) :=
  new_states ← mapM (gpu_state w) handles;
  Ret (new_states, report (strftime w) new_states).

(** [[nvmlDeviceGetHandleByIndex(i) for i in range(nvmlDeviceGetCount())]] *)
Definition get_handles (w : world) : result (list handle) :=
  count ← nvmlDeviceGetCount w;
  mapM (nvmlDeviceGetHandleByIndex w) (py_range count).

(** [NotifyBot._get_gpu_quick] (lines 243-250). *)
Definition _get_gpu_quick (w : world) : Bot unit :=
  handles ← lift (get_handles w);
  '(_, msg) ← lift (_query_once w handles);
  reply_markdown msg.

(** The body of the loop of [_get_gpu] (lines 207-210). *)
Definition get_gpu_one (w : world) (i : Z) : Bot unit :=
  h ← lift (nvmlDeviceGetHandleByIndex w i);
  msg ← lift (get_usage_msg w i h);
  reply_markdown msg.

Fixpoint get_gpu_loop (w : world) (ids : list Z) : Bot unit :=
  match ids with
  | [] => mret tt
  | i :: rest => get_gpu_one w i;; get_gpu_loop w rest
  end.

(** [NotifyBot._get_gpu] (lines 203-210). *)
Definition _get_gpu (w : world) (upd : update) : Bot unit :=
  print (from_user_username upd +:+ " requested gpu usage");;
  count ← lift (nvmlDeviceGetCount w);
  get_gpu_loop w (py_range count).

(** One call of [self._updater.bot.send_message]. *)
Definition send (w : world) (chat_id : Z) (msg : string) (markdown : bool)
  : Bot unit :=
  emit (SendMessage chat_id msg markdown);;
  lift (send_message w chat_id msg markdown).

Definition is_Unauthorized (e : exn) : bool :=
  match e with
  | Unauthorized => true
  | _ => false
  end.

(** The loop [for chat_id in self._whitelist: try: send_message(...) except
    telegram.error.Unauthorized: print(...)] of [_poll_gpu] (lines 268-272
    and 276-282). *)
Fixpoint broadcast (w : world) (recipients : list Z) (msg : string)
    (markdown : bool) : Bot unit :=
  match recipients with
  | [] => mret tt
  | chat_id :: rest =>
      try_except (send w chat_id msg markdown) is_Unauthorized
        (λ _, print ("Unauthorized for " +:+ pretty chat_id));;
      broadcast w rest msg markdown
  end.

(** One turn of the [while True] loop of [_poll_gpu] (lines 257-283); the
    result is the value of [old_states] for the next turn. *)
Definition poll_cycle (w : world) (old_states : list (option string))
  : Bot (list (option string)) :=
  s ← get;
  emit (Sleep (interval s));;
  handles ← lift (get_handles w);
  match _query_once w handles with
  | Raise e =>
      let msg := format_exc e in
      print msg;;
      broadcast w (_whitelist s) msg false;;
      mret old_states
  | Ret (new_states, msg) =>
      if bool_decide (Some <$> new_states ≠ old_states) then
        broadcast w (_whitelist s) msg true;;
        mret (Some <$> new_states)
      else mret old_states
  end.

(** The loop, for as many turns as there are worlds in [ws]: the [i]-th
    turn runs against the [i]-th world.  An exception ends it. *)
Fixpoint poll_loop (ws : list world) (old_states : list (option string))
  : Bot (list (option string)) :=
  match ws with
  | [] => mret old_states
  | w :: ws' => old_states' ← poll_cycle w old_states; poll_loop ws' old_states'
  end.

(** [[None] * n] *)
Definition sentinel (n : Z) : list (option string) :=
  replicate (Z.to_nat n) None.

(** [NotifyBot._poll_gpu] (lines 253-283), cut after [length ws] turns. *)
Definition _poll_gpu (w0 : world) (ws : list world) : Bot (list (option string)) :=
  count ← lift (nvmlDeviceGetCount w0);
  poll_loop ws (sentinel count).

(** ** Vocabulary of the properties *)

(** A label that says "occupied". *)
Definition is_OCCUPIED (label : string) : bool :=
  String.prefix "🤡OCCUPIED by " label.

(** The transport took the message for this chat. *)
Definition accepted (w : world) (x : Z * string * bool) : bool :=
  match send_message w x.1.1 x.1.2 x.2 with
  | Ret _ => true
  | Raise _ => false
  end.

(** The messages of a trace that reached their chat. *)
Definition delivered (w : world) (t : list effect) : list (Z * string * bool) :=
  List.filter (accepted w) (sends t).

(** The triple that [sends] records for a message to chat [c], and the chat
    of such a triple. *)
Definition sent_to (msg : string) (markdown : bool) (c : Z) : Z * string * bool :=
  (c, msg, markdown).

Definition chat (x : Z * string * bool) : Z := x.1.1.

(** The effects of a broadcast that no transport error interrupts: one
    call of [send_message] per recipient, in order, and one line on the
    console for each recipient who has blocked the bot. *)
Definition broadcast_trace (w : world) (recipients : list Z) (msg : string)
    (markdown : bool) : list effect :=
  flat_map (λ c,
    SendMessage c msg markdown
    :: match send_message w c msg markdown with
       | Ret _ => []
       | Raise _ => [Print ("Unauthorized for " +:+ pretty c)]
       end) recipients.

(** No delivery of [msg] to one of [recipients] fails with an error other
    than [Unauthorized]. *)
Definition transport_up (w : world) (recipients : list Z) (msg : string)
    (markdown : bool) : Prop :=
  ∀ c, c ∈ recipients →
    send_message w c msg markdown = Ret tt
    ∨ send_message w c msg markdown = Raise Unauthorized.

(** Every reservation is for a device in [[0, n)]. *)
Definition buffers_in_range (n : Z) (s : bot) : Prop :=
  ∀ gid, is_Some (cuda_buffers s !! gid) → 0 <= gid < n.

(** The privileged commands, and the states that the bot reaches by them
    on a machine with [n] devices, starting as [__init__] leaves it. *)
Inductive command := occ | rel | set_interval.

Definition dispatch (c : command) : world → update → list string → Bot unit :=
  match c with
  | occ => _occupy
  | rel => _release
  | set_interval => _set_interval
  end.

Inductive reachable (n : Z) (whitelist : list Z) : bot → Prop :=
| reachable_init :
    reachable n whitelist
      {| _whitelist := whitelist; cuda_buffers := ∅; interval := 5 |}
| reachable_step s c w upd args :
    reachable n whitelist s →
    nvmlDeviceGetCount w = Ret n →
    reachable n whitelist (final (dispatch c w upd args s)).

(** What [release_one] replies, by the state it finds. *)
Definition release_reply (s : bot) (gid : Z) : string :=
  match cuda_buffers s !! gid with
  | Some _ => "Released GPU " +:+ pretty gid
  | None => "GPU " +:+ pretty gid +:+ " is not occupied"
  end.

(** The effects that the poll loop may have, and those that a command
    may have. *)
Definition poller_effect (e : effect) : Prop :=
  match e with
  | Sleep _ | Print _ | SendMessage _ _ _ => True
  | _ => False
  end.

Definition command_effect (e : effect) : Prop :=
  match e with
  | Sleep _ | SendMessage _ _ _ => False
  | _ => True
  end.

(** In world [w] the devices are read without error and have these
    labels. *)
Definition reads (labels : list string) (w : world) : Prop :=
  ∃ handles msg,
    get_handles w = Ret handles ∧ _query_once w handles = Ret (labels, msg).

(** The usage message of device [i], as [_get_gpu] computes it. *)
Definition usage (w : world) (i : Z) : result string :=
  h ← nvmlDeviceGetHandleByIndex w i;
  get_usage_msg w i h.

(** ** Sample machines *)

Module Sample.

Definition GiB : Z := 2 ^ 30.

(** A device with 16 GiB, [u] bytes in use by the processes [pids]. *)
Definition gpu (u : Z) (pids : list Z) : handle :=
  {| nvmlDeviceGetMemoryInfo :=
       Ret {| total := 16 * GiB; used := u; free := 16 * GiB - u |};
     nvmlDeviceGetComputeRunningProcesses := Ret pids |}.

(** A device that the driver cannot read. *)
Definition lost : handle :=
  {| nvmlDeviceGetMemoryInfo := Raise (NVMLError "GPU is lost");
     nvmlDeviceGetComputeRunningProcesses := Raise (NVMLError "GPU is lost") |}.

Definition alice : process :=
  {| username := "alice"; cmdline := ["python"; "train.py"] |}.

(** Two devices, the first one used by alice; every allocation and every
    delivery succeeds. *)
Definition machine : world :=
  {| nvmlDeviceGetCount := Ret 2;
     nvmlDeviceGetHandleByIndex := λ i,
       if i =? 0 then Ret (gpu (2 * GiB) [100]) else Ret (gpu 0 []);
     Process := λ _, Ret alice;
     cuda_device_array := λ _ n, Ret {| nbytes := n |};
     send_message := λ _ _ _, Ret tt;
     strftime := "2024-01-01 00:00:00" |}.

Definition with_devices (w : world) (devices : list handle) : world :=
  {| nvmlDeviceGetCount := Ret (Z.of_nat (length devices));
     nvmlDeviceGetHandleByIndex := λ i,
       match devices !! Z.to_nat i with
       | Some h => Ret h
       | None => Raise (NVMLError "Invalid Argument")
       end;
     Process := Process w;
     cuda_device_array := cuda_device_array w;
     send_message := send_message w;
     strftime := strftime w |}.

Definition with_allocator (w : world) (alloc : nat → Z → result device_array)
  : world :=
  {| nvmlDeviceGetCount := nvmlDeviceGetCount w;
     nvmlDeviceGetHandleByIndex := nvmlDeviceGetHandleByIndex w;
     Process := Process w;
     cuda_device_array := alloc;
     send_message := send_message w;
     strftime := strftime w |}.

Definition with_transport (w : world) (tr : Z → string → bool → result unit)
  : world :=
  {| nvmlDeviceGetCount := nvmlDeviceGetCount w;
     nvmlDeviceGetHandleByIndex := nvmlDeviceGetHandleByIndex w;
     Process := Process w;
     cuda_device_array := cuda_device_array w;
     send_message := tr;
     strftime := strftime w |}.

(** The driver counts the devices but hands out no handle. *)
Definition without_handles (w : world) : world :=
  {| nvmlDeviceGetCount := nvmlDeviceGetCount w;
     nvmlDeviceGetHandleByIndex := λ _, Raise (NVMLError "GPU is lost");
     Process := Process w;
     cuda_device_array := cuda_device_array w;
     send_message := send_message w;
     strftime := strftime w |}.

(** The allocator fails twice, then succeeds. *)
Definition third_time_lucky (k : nat) (n : Z) : result device_array :=
  if (k <? 2)%nat then Raise CudaAPIError else Ret {| nbytes := n |}.

(** Chat [c] has blocked the bot. *)
Definition blocked_by (c : Z) (chat : Z) (_ : string) (_ : bool) : result unit :=
  if chat =? c then Raise Unauthorized else Ret tt.

(** The network is down. *)
Definition offline (_ : Z) (_ : string) (_ : bool) : result unit :=
  Raise (TelegramError "NetworkError").

(** The network fails when chat [c] is written to. *)
Definition fails_at (c : Z) (chat : Z) (_ : string) (_ : bool) : result unit :=
  if chat =? c then Raise (TelegramError "NetworkError") else Ret tt.

(** The bot after [__init__], with three subscribers. *)
Definition fresh : bot :=
  {| _whitelist := [1; 2; 3]; cuda_buffers := ∅; interval := 5 |}.

Definition subscriber : update :=
  {| from_user_id := 1; from_user_username := "ann" |}.

Definition stranger : update :=
  {| from_user_id := 9; from_user_username := "eve" |}.

End Sample.

(** Unfolds the plumbing of [Bot] in a goal. *)
Ltac run :=
  cbv [mbind Bot_bind mret Bot_ret get put emit lift raise reply_text
       reply_markdown print try_except send outcome final effects];
  cbn [app fst snd negb].

(** * Properties *)

(** ** Rounding to binary64 *)

Section Rounding.

Import PyFloat.

Lemma pow2_pos (e : Z) : 0 < 2 ^ Z.max 0 e.
Proof. apply Z.pow_pos_nonneg; lia. Qed.

Lemma pow2_shift (e j : Z) :
  0 <= j ->
  2 ^ Z.max 0 (e + j) * 2 ^ Z.max 0 (- e)
  = 2 ^ j * 2 ^ Z.max 0 e * 2 ^ Z.max 0 (- (e + j)).
Proof.
  intros Hj.
  destruct (Z_le_gt_dec 0 e) as [He|He].
  - replace (Z.max 0 (e + j)) with (e + j) by lia.
    replace (Z.max 0 e) with e by lia.
    replace (Z.max 0 (- e)) with 0 by lia.
    replace (Z.max 0 (- (e + j))) with 0 by lia.
    rewrite Z.pow_add_r by lia. rewrite Z.pow_0_r. lia.
  - replace (Z.max 0 e) with 0 by lia.
    replace (Z.max 0 (- e)) with (- e) by lia.
    destruct (Z_le_gt_dec (e + j) 0) as [Hs|Hs].
    + replace (Z.max 0 (e + j)) with 0 by lia.
      replace (Z.max 0 (- (e + j))) with (- (e + j)) by lia.
      replace (2 ^ (- e)) with (2 ^ (j + - (e + j))) by (f_equal; lia).
      rewrite (Z.pow_add_r 2 j (- (e + j))) by lia. rewrite Z.pow_0_r. lia.
    + replace (Z.max 0 (e + j)) with (e + j) by lia.
      replace (Z.max 0 (- (e + j))) with 0 by lia.
      replace (2 ^ j) with (2 ^ ((e + j) + - e)) by (f_equal; lia).
      rewrite (Z.pow_add_r 2 (e + j) (- e)) by lia. rewrite Z.pow_0_r. lia.
Qed.

Lemma flog2_spec (n d : Z) :
  0 < n -> 0 < d ->
  d * 2 ^ Z.max 0 (flog2 n d) <= n * 2 ^ Z.max 0 (- flog2 n d)
  /\ n * 2 ^ Z.max 0 (- flog2 n d) < 2 * d * 2 ^ Z.max 0 (flog2 n d).
Proof.
  intros Hn Hd. unfold flog2.
  destruct (Z.log2_spec n Hn) as [Hn1 Hn2].
  destruct (Z.log2_spec d Hd) as [Hd1 Hd2].
  pose proof (Z.log2_nonneg n) as Ln. pose proof (Z.log2_nonneg d) as Ld.
  rewrite Z.pow_succ_r in Hn2, Hd2 by lia.
  set (ln := Z.log2 n) in *. set (ld := Z.log2 d) in *.
  set (k := ln - ld).
  assert (HA : n * 2 ^ Z.max 0 (- k) < 2 * d * 2 ^ Z.max 0 k).
  { destruct (Z_le_gt_dec 0 k) as [Hk|Hk].
    - replace (Z.max 0 (- k)) with 0 by lia.
      replace (Z.max 0 k) with k by lia.
      replace ln with (k + ld) in Hn2 by lia.
      rewrite Z.pow_add_r in Hn2 by lia.
      assert (0 < 2 ^ k) by (apply Z.pow_pos_nonneg; lia).
      rewrite Z.pow_0_r. nia.
    - replace (Z.max 0 (- k)) with (- k) by lia.
      replace (Z.max 0 k) with 0 by lia.
      replace ld with (ln + - k) in Hd1 by lia.
      rewrite Z.pow_add_r in Hd1 by lia.
      assert (0 < 2 ^ (- k)) by (apply Z.pow_pos_nonneg; lia).
      rewrite Z.pow_0_r. nia. }
  assert (HB : d * 2 ^ Z.max 0 (k - 1) <= n * 2 ^ Z.max 0 (- (k - 1))).
  { destruct (Z_le_gt_dec 1 k) as [Hk|Hk].
    - replace (Z.max 0 (- (k - 1))) with 0 by lia.
      replace (Z.max 0 (k - 1)) with (k - 1) by lia.
      replace ln with (ld + (k - 1) + 1) in Hn1 by lia.
      rewrite Z.pow_add_r, Z.pow_add_r, Z.pow_1_r in Hn1 by lia.
      assert (0 < 2 ^ (k - 1)) by (apply Z.pow_pos_nonneg; lia).
      rewrite Z.pow_0_r. nia.
    - replace (Z.max 0 (- (k - 1))) with (- k + 1) by lia.
      replace (Z.max 0 (k - 1)) with 0 by lia.
      replace (ld) with (ln + - k) in Hd2 by lia.
      rewrite Z.pow_add_r in * by lia. rewrite Z.pow_1_r.
      assert (0 < 2 ^ (- k)) by (apply Z.pow_pos_nonneg; lia).
      rewrite Z.pow_0_r. nia. }
  destruct (Z.leb_spec (d * 2 ^ Z.max 0 k) (n * 2 ^ Z.max 0 (- k))) as [Ht|Ht].
  - split; [exact Ht | exact HA].
  - split; [exact HB |].
    pose proof (pow2_shift (k - 1) 1 ltac:(lia)) as E.
    replace (k - 1 + 1) with k in E by lia. rewrite Z.pow_1_r in E.
    pose proof (pow2_pos (- k)). pose proof (pow2_pos (- (k - 1))).
    pose proof (pow2_pos k). pose proof (pow2_pos (k - 1)).
    nia.
Qed.

(** [rne] stays between the floor and the ceiling. *)
Lemma rne_bounds (n d a b : Z) :
  0 < d -> a * d <= n -> n <= b * d -> a <= rne n d <= b.
Proof.
  intros Hd Ha Hb. unfold rne.
  pose proof (Z.div_mod n d ltac:(lia)) as E.
  pose proof (Z.mod_pos_bound n d Hd) as M.
  assert (a <= n / d) by (apply Z.div_le_lower_bound; lia).
  assert (n mod d = 0 \/ n / d + 1 <= b) as Hup by nia.
  destruct (Z.compare_spec (2 * (n mod d)) d) as [C|C|C];
    [destruct (Z.even (n / d))|..]; nia.
Qed.

(** [rne n d] is an integer nearest to [n/d]. *)
Lemma rne_nearest (n d : Z) : 0 < d -> Z.abs (2 * (rne n d * d - n)) <= d.
Proof.
  intros Hd. unfold rne.
  pose proof (Z.div_mod n d ltac:(lia)) as E.
  pose proof (Z.mod_pos_bound n d Hd) as M.
  destruct (Z.compare_spec (2 * (n mod d)) d) as [C|C|C];
    [destruct (Z.even (n / d))|..]; nia.
Qed.

Lemma rne_exact (q d : Z) : 0 < d -> rne (q * d) d = q.
Proof.
  intros Hd. unfold rne.
  rewrite Z.mod_mul, Z.div_mul by lia.
  destruct (Z.compare_spec (2 * 0) d); lia.
Qed.

(** The significand chosen by [round53_pos] has 53 bits (or is [2^53],
    when the value rounds up to the next power of two). *)
Lemma round53_pos_significand (n d : Z) :
  0 < n -> 0 < d ->
  let s := flog2 n d - (prec - 1) in
  2 ^ 52 <= rne (n * 2 ^ Z.max 0 (- s)) (d * 2 ^ Z.max 0 s) <= 2 ^ 53.
Proof.
  intros Hn Hd s.
  destruct (flog2_spec n d Hn Hd) as [L U].
  pose proof (pow2_shift s 52 ltac:(lia)) as E.
  replace (s + 52) with (flog2 n d) in E by (unfold s, prec; lia).
  pose proof (pow2_pos s). pose proof (pow2_pos (- s)).
  pose proof (pow2_pos (flog2 n d)). pose proof (pow2_pos (- flog2 n d)).
  set (Pe := 2 ^ Z.max 0 (flog2 n d)) in *.
  set (Ne := 2 ^ Z.max 0 (- flog2 n d)) in *.
  set (Ps := 2 ^ Z.max 0 s) in *. set (Ns := 2 ^ Z.max 0 (- s)) in *.
  assert (E53 : 2 ^ 53 = 2 * 2 ^ 52) by reflexivity.
  set (t := 2 ^ 52) in *. assert (0 < t) by (unfold t; lia).
  apply rne_bounds; [nia| |].
  - apply (Z.mul_le_mono_pos_r _ _ Ne); [lia|].
    replace (t * (d * Ps) * Ne) with (d * (t * Ps * Ne)) by ring.
    rewrite <- E. nia.
  - apply (Z.mul_le_mono_pos_r _ _ Ne); [lia|].
    rewrite E53.
    replace (2 * t * (d * Ps) * Ne) with (2 * d * (t * Ps * Ne)) by ring.
    rewrite <- E. nia.
Qed.

Lemma Zpos_to_pos (z : Z) : 0 < z -> Zpos (Z.to_pos z) = z.
Proof. intros. apply Z2Pos.id. lia. Qed.

(** The rounded value of [n/d] lies between the powers of two that
    surround [n/d]. *)
Lemma round53_pos_bounds (n d : Z) :
  0 < n -> 0 < d ->
  (pow2Q (flog2 n d) <= round53_pos n d <= pow2Q (flog2 n d + 1))%Q.
Proof.
  intros Hn Hd.
  pose proof (round53_pos_significand n d Hn Hd) as Hm. cbv zeta in Hm.
  unfold round53_pos, pow2Q.
  set (e := flog2 n d) in *. set (s := e - (prec - 1)) in *.
  set (m := rne _ _) in *.
  pose proof (pow2_shift s 52 ltac:(lia)) as E52.
  pose proof (pow2_shift s 53 ltac:(lia)) as E53.
  replace (s + 52) with e in E52 by (unfold s, prec; lia).
  replace (s + 53) with (e + 1) in E53 by (unfold s, prec; lia).
  pose proof (pow2_pos s). pose proof (pow2_pos (- s)).
  pose proof (pow2_pos e). pose proof (pow2_pos (- e)).
  pose proof (pow2_pos (e + 1)). pose proof (pow2_pos (- (e + 1))).
  unfold Qle; cbn [Qnum Qden]. rewrite !Zpos_to_pos by assumption.
  split.
  - rewrite E52. nia.
  - rewrite E53. nia.
Qed.

Lemma pow2Q_le_1 (e : Z) : e <= 0 -> (pow2Q e <= 1)%Q.
Proof.
  intros He. unfold pow2Q, Qle; cbn [Qnum Qden].
  replace (Z.max 0 e) with 0 by lia.
  pose proof (pow2_pos (- e)). rewrite Zpos_to_pos by assumption.
  rewrite Z.pow_0_r. lia.
Qed.

Lemma pow2Q_ge_2 (e : Z) : 1 <= e -> (2 <= pow2Q e)%Q.
Proof.
  intros He. unfold pow2Q, Qle; cbn [Qnum Qden].
  replace (Z.max 0 (- e)) with 0 by lia.
  replace (Z.max 0 e) with ((e - 1) + 1) by lia.
  rewrite Z.pow_add_r, Z.pow_1_r by lia.
  assert (0 < 2 ^ (e - 1)) by (apply Z.pow_pos_nonneg; lia).
  cbn. lia.
Qed.

(** [used / (1024**3) > 1] holds exactly when [used] exceeds [2^30]: the
    rounding of the quotient never crosses the threshold. *)
Lemma used_gb_gt_thresh (u : Z) :
  gtb_int (truediv_pos u (1024 ^ 3)) 1 = (2 ^ 30 <? u).
Proof.
  unfold gtb_int, truediv_pos, round53. cbn [Qnum Qden].
  change (Zpos (1024 ^ 3)) with (2 ^ 30).
  destruct u as [|p|p].
  - reflexivity.
  - set (u := Zpos p). assert (Hu : 0 < u) by (unfold u; lia).
    pose proof (round53_pos_bounds u (2 ^ 30) Hu ltac:(lia)) as [Lo Hi].
    destruct (flog2_spec u (2 ^ 30) Hu ltac:(lia)) as [L U].
    set (e := flog2 u (2 ^ 30)) in *.
    pose proof (pow2_pos e). pose proof (pow2_pos (- e)).
    destruct (Z.ltb_spec (2 ^ 30) u) as [Hgt|Hle].
    + (* above the threshold *)
      apply negb_true_iff, not_true_iff_false. rewrite Qle_bool_iff.
      intros Hq.
      assert (He : 0 <= e).
      { destruct (Z_le_gt_dec 0 e); [assumption|exfalso].
        replace (Z.max 0 e) with 0 in * by lia.
        replace (Z.max 0 (- e)) with ((- e - 1) + 1) in * by lia.
        rewrite Z.pow_add_r, Z.pow_1_r in * by lia.
        assert (0 < 2 ^ (- e - 1)) by (apply Z.pow_pos_nonneg; lia).
        rewrite Z.pow_0_r in *. nia. }
      destruct (Z_le_gt_dec 1 e) as [He1|He1].
      * pose proof (pow2Q_ge_2 e He1) as H2.
        assert (2 <= inject_Z 1)%Q as Habs
            by (eapply Qle_trans; [exact H2|]; eapply Qle_trans; eauto).
        revert Habs. unfold Qle; cbn. lia.
      * assert (e = 0) as E0 by lia.
        revert Hq. unfold round53_pos. fold e. rewrite E0.
        change (0 - (prec - 1)) with (- 52).
        change (Z.max 0 (- - 52)) with 52. change (Z.max 0 (- 52)) with 0.
        rewrite Z.pow_0_r, Z.mul_1_r.
        replace (u * 2 ^ 52) with ((u * 2 ^ 22) * 2 ^ 30) by (cbn; lia).
        rewrite rne_exact by lia.
        unfold Qle; cbn. lia.
    + (* at or below the threshold *)
      apply negb_false_iff. rewrite Qle_bool_iff.
      destruct (Z.eq_dec u (2 ^ 30)) as [Eq|Ne].
      * rewrite Eq. vm_compute. discriminate.
      * assert (He : e + 1 <= 0).
        { destruct (Z_le_gt_dec (e + 1) 0); [assumption|exfalso].
          replace (Z.max 0 e) with e in * by lia.
          replace (Z.max 0 (- e)) with 0 in * by lia.
          assert (1 <= 2 ^ e) by (apply (Z.pow_le_mono_r 2 0 e); lia).
          rewrite Z.pow_0_r in *. nia. }
        eapply Qle_trans; [exact Hi|]. apply (pow2Q_le_1 _ He).
  - set (u := Zpos p). assert (Hu : 0 < u) by (unfold u; lia).
    change (- Z.neg p) with u.
    pose proof (round53_pos_bounds u (2 ^ 30) Hu ltac:(lia)) as [Lo Hi].
    replace (2 ^ 30 <? Z.neg p) with false by (symmetry; apply Z.ltb_ge; lia).
    apply negb_false_iff. rewrite Qle_bool_iff.
    assert (0 <= round53_pos u (2 ^ 30))%Q.
    { eapply Qle_trans; [|exact Lo]. unfold pow2Q, Qle; cbn [Qnum Qden].
      pose proof (pow2_pos (flog2 u (2 ^ 30))). lia. }
    apply Qle_trans with 0%Q; [|unfold Qle; cbn; lia].
    apply (Qopp_le_compat 0) in H. exact H.
Qed.

End Rounding.

(** ** The label of a device *)

Lemma is_OCCUPIED_OCCUPIED (users : list string) :
  is_OCCUPIED (OCCUPIED users) = true.
Proof.
  unfold is_OCCUPIED, OCCUPIED.
  destruct (String.concat ", " users); reflexivity.
Qed.

Lemma is_OCCUPIED_AVAILABLE : is_OCCUPIED AVAILABLE = false.
Proof. reflexivity. Qed.

Lemma gpu_state_low (w : world) (h : handle) (info : memory_info) :
  nvmlDeviceGetMemoryInfo h = Ret info →
  used info <= 2 ^ 30 →
  gpu_state w h = Ret AVAILABLE.
Proof.
  intros Hm Hu. unfold gpu_state. rewrite Hm. cbn [mbind result_bind].
  rewrite used_gb_gt_thresh.
  destruct (Z.ltb_spec (2 ^ 30) (used info)); [lia | reflexivity].
Qed.

Lemma gpu_state_high (w : world) (h : handle) (info : memory_info)
    (uinfos : list (string * string)) :
  nvmlDeviceGetMemoryInfo h = Ret info →
  get_user_info w h = Ret uinfos →
  2 ^ 30 < used info →
  gpu_state w h = Ret (OCCUPIED (decorate <$> (fst <$> uinfos))).
Proof.
  intros Hm Hp Hu. unfold gpu_state. rewrite Hm. cbn [mbind result_bind].
  rewrite used_gb_gt_thresh.
  destruct (Z.ltb_spec (2 ^ 30) (used info)); [| lia].
  rewrite Hp. reflexivity.
Qed.

(** C3.  For every device whose memory and processes can be read,
    [_query_once] labels the device OCCUPIED if and only if its used memory
    strictly exceeds 1 GiB ([2^30] bytes), whatever the list of processes:
    exactly [2^30] bytes give AVAILABLE, [2^30 + 1] bytes give OCCUPIED. *)
Theorem occupancy_threshold (w : world) (h : handle) (info : memory_info)
    (uinfos : list (string * string)) :
  nvmlDeviceGetMemoryInfo h = Ret info →
  get_user_info w h = Ret uinfos →
  ∃ label,
    gpu_state w h = Ret label
    ∧ (is_OCCUPIED label = true ↔ 2 ^ 30 < used info)
    ∧ (label = AVAILABLE ↔ used info <= 2 ^ 30)
    ∧ (used info = 2 ^ 30 → label = AVAILABLE)
    ∧ (used info = 2 ^ 30 + 1 →
       label = OCCUPIED (decorate <$> (fst <$> uinfos))).
Proof.
  intros Hm Hp.
  destruct (Z_le_gt_dec (used info) (2 ^ 30)) as [Hle|Hgt].
  - exists AVAILABLE. rewrite (gpu_state_low w h info Hm Hle).
    rewrite is_OCCUPIED_AVAILABLE.
    repeat split; try done; try lia.
  - exists (OCCUPIED (decorate <$> (fst <$> uinfos))).
    rewrite (gpu_state_high w h info uinfos Hm Hp) by lia.
    rewrite is_OCCUPIED_OCCUPIED.
    repeat split; try done; try lia.
Qed.

Lemma occupancy_threshold_witness :
  gpu_state Sample.machine (Sample.gpu (2 ^ 30) [100]) = Ret AVAILABLE
  ∧ gpu_state Sample.machine (Sample.gpu (2 ^ 30 + 1) [])
    = Ret "🤡OCCUPIED by "
  ∧ ∃ label,
      gpu_state Sample.machine (Sample.gpu (2 ^ 30 + 1) [100]) = Ret label
      ∧ (is_OCCUPIED label = true ↔ 2 ^ 30 < 2 ^ 30 + 1)
      ∧ (label = AVAILABLE ↔ 2 ^ 30 + 1 <= 2 ^ 30)
      ∧ (2 ^ 30 + 1 = 2 ^ 30 → label = AVAILABLE)
      ∧ (2 ^ 30 + 1 = 2 ^ 30 + 1 → label = "🤡OCCUPIED by alice💸").
Proof.
  split; [vm_compute; reflexivity|]. split; [vm_compute; reflexivity|].
  apply (occupancy_threshold Sample.machine (Sample.gpu (2 ^ 30 + 1) [100])
           {| total := 16 * Sample.GiB; used := 2 ^ 30 + 1;
              free := 16 * Sample.GiB - (2 ^ 30 + 1) |}
           [("alice", "python train.py")]).
  - reflexivity.
  - reflexivity.
Defined.

(** ** Running the handlers *)

Lemma bind_run {A B} (m : Bot A) (f : A → Bot B) (s : bot) :
  (m ≫= f) s =
  match m s with
  | (Ret a, s1, t1) => (outcome (f a s1), final (f a s1), t1 ++ effects (f a s1))
  | (Raise e, s1, t1) => (Raise e, s1, t1)
  end.
Proof.
  unfold mbind, Bot_bind, outcome, final, effects.
  destruct (m s) as [[[a|e] s1] t1]; [|reflexivity].
  destruct (f a s1) as [[r s2] t2]. reflexivity.
Qed.

(** The malformed specifier [f.1] makes every size unprintable. *)
Lemma format_gb_raises (to_alloc : Z) :
  format_gb to_alloc = Raise (ValueError "Invalid format specifier").
Proof. reflexivity. Qed.

(** One round of the loop of [_occupy] ends it: either the block is stored
    and the reply fails, or the report of the failure fails. *)
Lemma occupy_loop_run (w : world) (gid : Z) (n k : nat) (to_alloc : Z) (s : bot) :
  occupy_loop w gid (S n) k to_alloc s =
  match cuda_device_array w k to_alloc with
  | Ret buffer =>
      (Raise (ValueError "Invalid format specifier"),
       {| _whitelist := _whitelist s;
          cuda_buffers := <[gid := buffer]> (cuda_buffers s);
          interval := interval s |},
       [DeviceArray to_alloc])
  | Raise CudaAPIError =>
      (Raise (ValueError "Invalid format specifier"), s, [DeviceArray to_alloc])
  | Raise e => (Raise e, s, [DeviceArray to_alloc])
  end.
Proof.
  cbn [occupy_loop]. run.
  destruct (cuda_device_array w k to_alloc) as [b|[]]; reflexivity.
Qed.

(** What [_occupy] does for a whitelisted caller and one argument that
    names a device of the machine. *)
Lemma occupy_run (w : world) (upd : update) (arg : string) (gid n : Z)
    (h : handle) (info : memory_info) (s : bot) :
  from_user_id upd ∈ _whitelist s →
  py_int arg = Ret gid →
  nvmlDeviceGetCount w = Ret n →
  0 <= gid < n →
  nvmlDeviceGetHandleByIndex w gid = Ret h →
  nvmlDeviceGetMemoryInfo h = Ret info →
  let to_alloc := scale (free info) (PyFloat.literal 95 100) in
  _occupy w upd [arg] s =
  (outcome (occupy_loop w gid 3 0 to_alloc s),
   final (occupy_loop w gid 3 0 to_alloc s),
   Print (from_user_username upd +:+ " tries to occupy some resources")
   :: SelectDevice gid :: effects (occupy_loop w gid 3 0 to_alloc s)).
Proof.
  intros Hw Hp Hc Hr Hh Hi to_alloc.
  unfold _occupy, whitelisted.
  run. rewrite bool_decide_true by exact Hw. cbn [negb]. rewrite Hp.
  unfold out_of_range. rewrite Hc. cbn [mbind result_bind].
  destruct (Z.ltb_spec gid 0); [lia|].
  destruct (Z.geb_spec gid n); [lia|].
  rewrite Hh, Hi. fold to_alloc.
  destruct (occupy_loop w gid 3 0 to_alloc s) as [[r s'] t]. reflexivity.
Qed.

(** Whatever the allocator answers, [_occupy] asks it once and replies
    nothing: the first reply it builds raises. *)
Lemma occupy_one_attempt (w : world) (upd : update) (arg : string)
    (gid n : Z) (h : handle) (info : memory_info) (s : bot) :
  from_user_id upd ∈ _whitelist s →
  py_int arg = Ret gid →
  nvmlDeviceGetCount w = Ret n →
  0 <= gid < n →
  nvmlDeviceGetHandleByIndex w gid = Ret h →
  nvmlDeviceGetMemoryInfo h = Ret info →
  let r := _occupy w upd [arg] s in
  (∃ e, outcome r = Raise e)
  ∧ effects r
    = [Print (from_user_username upd +:+ " tries to occupy some resources");
       SelectDevice gid;
       DeviceArray (scale (free info) (PyFloat.literal 95 100))]
  ∧ replies (effects r) = [].
Proof.
  intros Hw Hp Hc Hr Hh Hi r. subst r.
  rewrite (occupy_run w upd arg gid n h info s Hw Hp Hc Hr Hh Hi).
  rewrite occupy_loop_run.
  destruct (cuda_device_array w 0 _) as [b|[]];
    cbn [outcome final effects fst snd]; (split; [by eexists|done]).
Qed.

(** The handlers never touch the whitelist. *)
Lemma occupy_whitelist (w : world) (upd : update) (args : list string) (s : bot) :
  _whitelist (final (_occupy w upd args s)) = _whitelist s.
Proof.
  unfold _occupy. run.
  destruct (whitelisted s (from_user_id upd)); cbn [negb]; [|reflexivity].
  destruct args as [|arg [|? ?]]; try reflexivity.
  destruct (py_int arg) as [gid|]; [|reflexivity].
  destruct (out_of_range w gid) as [[]|]; try reflexivity.
  - destruct (nvmlDeviceGetCount w); reflexivity.
  - destruct (nvmlDeviceGetHandleByIndex w gid) as [h|]; [|reflexivity].
    destruct (nvmlDeviceGetMemoryInfo h) as [info|]; [|reflexivity].
    rewrite occupy_loop_run.
    destruct (cuda_device_array w 0 _) as [b|[]]; reflexivity.
Qed.

Lemma release_one_absent (gid : Z) (s : bot) :
  cuda_buffers s !! gid = None →
  release_one gid s =
  (Ret tt, s, [ReplyText ("GPU " +:+ pretty gid +:+ " is not occupied") false]).
Proof. intros H. unfold release_one. run. rewrite H. reflexivity. Qed.

Lemma release_one_present (gid : Z) (s : bot) (b : device_array) :
  cuda_buffers s !! gid = Some b →
  release_one gid s =
  (Ret tt,
   {| _whitelist := _whitelist s;
      cuda_buffers := delete gid (cuda_buffers s);
      interval := interval s |},
   [SelectDevice gid; ResetDevice gid;
    ReplyText ("Released GPU " +:+ pretty gid) false]).
Proof. intros H. unfold release_one. run. rewrite H. reflexivity. Qed.

(** After [release_one gid] nothing is held under [gid], and nothing that
    was not held before is held. *)
Lemma release_one_final (gid : Z) (s : bot) :
  outcome (release_one gid s) = Ret tt
  ∧ _whitelist (final (release_one gid s)) = _whitelist s
  ∧ interval (final (release_one gid s)) = interval s
  ∧ cuda_buffers (final (release_one gid s)) = delete gid (cuda_buffers s).
Proof.
  destruct (cuda_buffers s !! gid) as [b|] eqn:E.
  - rewrite (release_one_present gid s b E). done.
  - rewrite (release_one_absent gid s E). cbn.
    rewrite delete_id by exact E. done.
Qed.

Lemma release_all_single (gid : Z) (s : bot) :
  release_all [gid] s = release_one gid s.
Proof.
  cbn [release_all]. rewrite bind_run.
  destruct (release_one_final gid s) as [Ho _].
  destruct (release_one gid s) as [[r s1] t1]. cbn in Ho. subst r.
  cbn. rewrite app_nil_r. reflexivity.
Qed.

Lemma release_all_final (gids : list Z) (s : bot) :
  outcome (release_all gids s) = Ret tt
  ∧ _whitelist (final (release_all gids s)) = _whitelist s
  ∧ interval (final (release_all gids s)) = interval s
  ∧ ∀ gid, is_Some (cuda_buffers (final (release_all gids s)) !! gid) →
           is_Some (cuda_buffers s !! gid).
Proof.
  revert s. induction gids as [|g gids IH]; intros s.
  - cbn. done.
  - cbn [release_all]. rewrite bind_run.
    destruct (release_one_final g s) as (Ho & Hw & Hi & Hb).
    destruct (release_one g s) as [[r s1] t1]. cbn in Ho, Hw, Hi, Hb. subst r.
    destruct (IH s1) as (Ho' & Hw' & Hi' & Hb').
    cbn [outcome final effects fst snd] in *.
    repeat split; try congruence.
    intros gid Hs. apply Hb' in Hs. rewrite Hb in Hs.
    destruct (decide (g = gid)) as [->|Hne].
    + rewrite lookup_delete_eq in Hs. by destruct Hs.
    + by rewrite lookup_delete_ne in Hs.
Qed.

(** What [_release] does for a whitelisted caller and one argument: the
    range check only adds a reply, the device is processed in any case. *)
Lemma release_run (w : world) (upd : update) (arg : string) (gid n : Z) (s : bot) :
  from_user_id upd ∈ _whitelist s →
  py_int arg = Ret gid →
  nvmlDeviceGetCount w = Ret n →
  _release w upd [arg] s =
  (outcome (release_one gid s), final (release_one gid s),
   Print (from_user_username upd +:+ " tries to release some resources")
   :: (if bool_decide (0 <= gid < n) then []
       else [ReplyText (invalid_gpu_id n) false])
   ++ effects (release_one gid s)).
Proof.
  intros Hw Hp Hc. unfold _release, whitelisted.
  run. rewrite bool_decide_true by exact Hw. cbn [negb]. rewrite Hp.
  unfold out_of_range. rewrite Hc. cbn [mbind result_bind].
  destruct (Z.ltb_spec gid 0); [|destruct (Z.geb_spec gid n)];
    run; rewrite release_all_single;
    destruct (release_one gid s) as [[r s1] t1]; cbn [fst snd].
  - rewrite bool_decide_false by lia. reflexivity.
  - rewrite bool_decide_false by lia. reflexivity.
  - rewrite bool_decide_true by lia. reflexivity.
Qed.

Lemma release_final (w : world) (upd : update) (args : list string) (s : bot) :
  _whitelist (final (_release w upd args s)) = _whitelist s
  ∧ ∀ gid, is_Some (cuda_buffers (final (_release w upd args s)) !! gid) →
           is_Some (cuda_buffers s !! gid).
Proof.
  unfold _release. run.
  destruct (whitelisted s (from_user_id upd)); cbn [negb]; [|done].
  destruct args as [|arg [|? ?]]; [| |done].
  - destruct (nvmlDeviceGetCount w) as [n|]; [|done].
    destruct (release_all_final (py_range n) s) as (_ & Hw & _ & Hb).
    destruct (release_all (py_range n) s) as [[r s1] t1]. done.
  - destruct (py_int arg) as [gid|]; [|done].
    destruct (release_all_final [gid] s) as (_ & Hw & _ & Hb).
    destruct (out_of_range w gid) as [[]|]; [| |done].
    + destruct (nvmlDeviceGetCount w); [|done].
      run. destruct (release_all [gid] s) as [[r s1] t1]. done.
    + run. destruct (release_all [gid] s) as [[r s1] t1]. done.
Qed.

Lemma set_interval_final (w : world) (upd : update) (args : list string) (s : bot) :
  _whitelist (final (_set_interval w upd args s)) = _whitelist s
  ∧ cuda_buffers (final (_set_interval w upd args s)) = cuda_buffers s.
Proof.
  unfold _set_interval. run.
  destruct (whitelisted s (from_user_id upd)); cbn [negb]; [|done].
  destruct args as [|arg [|? ?]]; [done| |done].
  destruct (py_int arg) as [i|]; [|done].
  destruct ((i <? 1) || (i >? 60 * 60)); done.
Qed.

(** [_occupy] only stores a block for a device that the machine has. *)
Lemma occupy_in_range (w : world) (upd : update) (args : list string)
    (n : Z) (s : bot) :
  nvmlDeviceGetCount w = Ret n →
  buffers_in_range n s →
  buffers_in_range n (final (_occupy w upd args s)).
Proof.
  intros Hc Hs. unfold _occupy. run.
  destruct (whitelisted s (from_user_id upd)); cbn [negb]; [|exact Hs].
  destruct args as [|arg [|? ?]]; try exact Hs.
  destruct (py_int arg) as [gid|]; [|exact Hs].
  unfold out_of_range. rewrite Hc. cbn [mbind result_bind].
  destruct (Z.ltb_spec gid 0); [exact Hs|].
  destruct (Z.geb_spec gid n); [exact Hs|].
  destruct (nvmlDeviceGetHandleByIndex w gid) as [h|]; [|exact Hs].
  destruct (nvmlDeviceGetMemoryInfo h) as [info|]; [|exact Hs].
  rewrite occupy_loop_run.
  destruct (cuda_device_array w 0 _) as [b|[]]; try exact Hs.
  intros g. cbn. destruct (decide (gid = g)) as [<-|Hne].
  - intros _. lia.
  - rewrite lookup_insert_ne by exact Hne. apply Hs.
Qed.

(** On a machine with [n] devices the bot never holds a block for an id
    outside [[0, n)]. *)
Lemma reachable_in_range (n : Z) (whitelist : list Z) (s : bot) :
  reachable n whitelist s → buffers_in_range n s.
Proof.
  induction 1 as [|s c w upd args Hr IH Hc].
  - intros g. cbn. rewrite lookup_empty. by intros [? ?].
  - destruct c; cbn [dispatch].
    + by apply occupy_in_range.
    + intros g Hg. apply IH. by apply (release_final w upd args s).
    + intros g. destruct (set_interval_final w upd args s) as [_ ->]. apply IH.
Qed.

Lemma reachable_whitelist (n : Z) (whitelist : list Z) (s : bot) :
  reachable n whitelist s → _whitelist s = whitelist.
Proof.
  induction 1 as [|s c w upd args Hr IH Hc]; [reflexivity|].
  destruct c; cbn [dispatch].
  - by rewrite occupy_whitelist.
  - by destruct (release_final w upd args s) as [-> _].
  - by destruct (set_interval_final w upd args s) as [-> _].
Qed.

(** ** Access control *)

(** C7.  For every caller who is not on the whitelist, [/occ] with any
    arguments replies with the rejection that names the caller's
    identifier and does nothing else: the state of the bot, reservations
    included, is unchanged, and no device is selected or allocated. *)
Theorem occupy_rejects_stranger (w : world) (upd : update)
    (args : list string) (s : bot) :
  from_user_id upd ∉ _whitelist s →
  _occupy w upd args s =
  (Ret tt, s,
   [ReplyText ("You are not yet on the whitelist. Add "
               +:+ pretty (from_user_id upd)
               +:+ " to your config to receive notifications from me") false]).
Proof.
  intros H. unfold _occupy, whitelisted. run.
  rewrite bool_decide_false by exact H. reflexivity.
Qed.

Lemma occupy_rejects_stranger_witness :
  _occupy Sample.machine Sample.stranger ["0"] Sample.fresh =
  (Ret tt, Sample.fresh,
   [ReplyText "You are not yet on the whitelist. Add 9 to your config to receive notifications from me" false]).
Proof.
  apply (occupy_rejects_stranger Sample.machine Sample.stranger ["0"] Sample.fresh).
  apply (bool_decide_unpack _). vm_compute. exact I.
Defined.

(** ** Releasing *)

(** C6.  [/rel <id>] is idempotent for a whitelisted caller: on an id
    that holds no reservation it returns normally, its last reply is
    "GPU <id> is not occupied" and the state is unchanged; and after
    [/occ <id>] followed by [/rel <id>], a second [/rel <id>] does the
    same.  In both cases no reservation is held under the id afterwards. *)
Theorem release_idempotent (w1 w2 w3 : world) (upd : update) (arg : string)
    (gid n2 n3 : Z) (s0 : bot) :
  from_user_id upd ∈ _whitelist s0 →
  py_int arg = Ret gid →
  nvmlDeviceGetCount w2 = Ret n2 →
  nvmlDeviceGetCount w3 = Ret n3 →
  (cuda_buffers s0 !! gid = None →
   let r := _release w2 upd [arg] s0 in
   outcome r = Ret tt
   ∧ last (replies (effects r))
     = Some ("GPU " +:+ pretty gid +:+ " is not occupied")
   ∧ final r = s0
   ∧ cuda_buffers (final r) !! gid = None)
  ∧ (let s1 := final (_occupy w1 upd [arg] s0) in
     let s2 := final (_release w2 upd [arg] s1) in
     let r := _release w3 upd [arg] s2 in
     outcome r = Ret tt
     ∧ last (replies (effects r))
       = Some ("GPU " +:+ pretty gid +:+ " is not occupied")
     ∧ final r = s2
     ∧ cuda_buffers (final r) !! gid = None).
Proof.
  intros Hw Hp H2 H3.
  assert (Hnone : ∀ w n s, from_user_id upd ∈ _whitelist s →
            nvmlDeviceGetCount w = Ret n →
            cuda_buffers s !! gid = None →
            let r := _release w upd [arg] s in
            outcome r = Ret tt
            ∧ last (replies (effects r))
              = Some ("GPU " +:+ pretty gid +:+ " is not occupied")
            ∧ final r = s
            ∧ cuda_buffers (final r) !! gid = None).
  { intros w n s Hws Hc Hb r. subst r.
    rewrite (release_run w upd arg gid n s Hws Hp Hc).
    rewrite (release_one_absent gid s Hb).
    cbn [outcome final effects fst snd].
    repeat split; try done.
    destruct (bool_decide (0 <= gid < n)); reflexivity. }
  split; [intros Hb; by apply (Hnone w2 n2 s0)|].
  intros s1 s2.
  assert (Hw1 : from_user_id upd ∈ _whitelist s1)
    by (unfold s1; rewrite occupy_whitelist; exact Hw).
  apply (Hnone w3 n3 s2).
  - unfold s2. by destruct (release_final w2 upd [arg] s1) as [-> _].
  - exact H3.
  - unfold s2. rewrite (release_run w2 upd arg gid n2 s1 Hw1 Hp H2).
    cbn [final fst snd].
    destruct (release_one_final gid s1) as (_ & _ & _ & ->).
    apply lookup_delete_eq.
Qed.

Lemma release_idempotent_witness :
  let s1 := final (_occupy Sample.machine Sample.subscriber ["0"] Sample.fresh) in
  let s2 := final (_release Sample.machine Sample.subscriber ["0"] s1) in
  let r := _release Sample.machine Sample.subscriber ["0"] s2 in
  cuda_buffers s1 !! 0 = Some {| nbytes := 14280766259 |}
  ∧ replies (effects (_release Sample.machine Sample.subscriber ["0"] s1))
    = ["Released GPU 0"]
  ∧ outcome r = Ret tt
  ∧ last (replies (effects r)) = Some "GPU 0 is not occupied"
  ∧ final r = s2
  ∧ cuda_buffers (final r) !! 0 = None.
Proof.
  intros s1 s2 r.
  split; [vm_compute; reflexivity|].
  split; [vm_compute; reflexivity|].
  refine (proj2 (release_idempotent Sample.machine Sample.machine Sample.machine
                   Sample.subscriber "0" 0 2 2 Sample.fresh _ _ _ _)).
  - apply (bool_decide_unpack _). vm_compute. exact I.
  - reflexivity.
  - reflexivity.
  - reflexivity.
Defined.

(** [_occupy] stops at an id that the machine does not have. *)
Lemma occupy_out_of_range (w : world) (upd : update) (arg : string)
    (gid n : Z) (s : bot) :
  from_user_id upd ∈ _whitelist s →
  py_int arg = Ret gid →
  nvmlDeviceGetCount w = Ret n →
  ¬ (0 <= gid < n) →
  _occupy w upd [arg] s =
  (Ret tt, s,
   [Print (from_user_username upd +:+ " tries to occupy some resources");
    ReplyText (invalid_gpu_id n) false]).
Proof.
  intros Hw Hp Hc Hr. unfold _occupy, whitelisted.
  run. rewrite bool_decide_true by exact Hw. cbn [negb]. rewrite Hp.
  unfold out_of_range. rewrite Hc. cbn [mbind result_bind].
  destruct (Z.ltb_spec gid 0); [reflexivity|].
  destruct (Z.geb_spec gid n); [reflexivity|lia].
Qed.

(** C10.  When a whitelisted caller sends [/rel <id>] with an id outside
    [[0, deviceCount)], [_release] replies "Invalid GPU ID" and goes on to
    process the id all the same: it runs the body of its loop for it, which
    replies that the device is not occupied, no block being held for an id
    that the machine does not have.  [_occupy] stops after the first reply. *)
Theorem release_out_of_range_continues (w : world) (upd : update)
    (arg : string) (gid n : Z) (s : bot) :
  from_user_id upd ∈ _whitelist s →
  py_int arg = Ret gid →
  nvmlDeviceGetCount w = Ret n →
  ¬ (0 <= gid < n) →
  (_release w upd [arg] s =
   (outcome (release_one gid s), final (release_one gid s),
    Print (from_user_username upd +:+ " tries to release some resources")
    :: ReplyText ("Invalid GPU ID. Must be between 0 and " +:+ pretty (n - 1))
                 false
    :: effects (release_one gid s)))
  ∧ (buffers_in_range n s →
     _release w upd [arg] s =
     (Ret tt, s,
      [Print (from_user_username upd +:+ " tries to release some resources");
       ReplyText ("Invalid GPU ID. Must be between 0 and " +:+ pretty (n - 1))
                 false;
       ReplyText ("GPU " +:+ pretty gid +:+ " is not occupied") false]))
  ∧ _occupy w upd [arg] s =
    (Ret tt, s,
     [Print (from_user_username upd +:+ " tries to occupy some resources");
      ReplyText ("Invalid GPU ID. Must be between 0 and " +:+ pretty (n - 1))
                false]).
Proof.
  intros Hw Hp Hc Hr.
  rewrite (release_run w upd arg gid n s Hw Hp Hc).
  rewrite bool_decide_false by exact Hr.
  split; [reflexivity|]. split.
  - intros Hs.
    assert (cuda_buffers s !! gid = None) as Hb.
    { destruct (cuda_buffers s !! gid) eqn:E; [|reflexivity].
      exfalso. apply Hr, Hs. rewrite E. by eexists. }
    rewrite (release_one_absent gid s Hb). reflexivity.
  - apply (occupy_out_of_range w upd arg gid n s Hw Hp Hc Hr).
Qed.

Lemma release_out_of_range_continues_witness :
  _release Sample.machine Sample.subscriber ["5"] Sample.fresh =
  (Ret tt, Sample.fresh,
   [Print "ann tries to release some resources";
    ReplyText "Invalid GPU ID. Must be between 0 and 1" false;
    ReplyText "GPU 5 is not occupied" false])
  ∧ _occupy Sample.machine Sample.subscriber ["5"] Sample.fresh =
    (Ret tt, Sample.fresh,
     [Print "ann tries to occupy some resources";
      ReplyText "Invalid GPU ID. Must be between 0 and 1" false]).
Proof.
  destruct (release_out_of_range_continues Sample.machine Sample.subscriber
              "5" 5 2 Sample.fresh) as (_ & Hrel & Hocc).
  - apply (bool_decide_unpack _). vm_compute. exact I.
  - reflexivity.
  - reflexivity.
  - lia.
  - split; [|exact Hocc]. apply Hrel.
    apply (reachable_in_range 2 [1; 2; 3]). constructor.
Defined.

(** ** Broadcasting *)

Lemma broadcast_run (w : world) (recipients : list Z) (msg : string)
    (markdown : bool) (s : bot) :
  transport_up w recipients msg markdown →
  broadcast w recipients msg markdown s
  = (Ret tt, s, broadcast_trace w recipients msg markdown).
Proof.
  induction recipients as [|c rest IH]; intros Hup; [reflexivity|].
  assert (Hrest : transport_up w rest msg markdown)
    by (intros c' Hc'; apply Hup; by right).
  cbn [broadcast broadcast_trace flat_map]. rewrite bind_run.
  specialize (IH Hrest).
  destruct (Hup c ltac:(by left)) as [E|E].
  - unfold try_except, send. run. rewrite E. run. rewrite IH. reflexivity.
  - unfold try_except, send. run. rewrite E. cbv [is_Unauthorized]. run.
    rewrite IH. reflexivity.
Qed.

Lemma sends_app (t1 t2 : list effect) : sends (t1 ++ t2) = sends t1 ++ sends t2.
Proof. unfold sends. apply omap_app. Qed.

Lemma sends_broadcast_trace (w : world) (recipients : list Z) (msg : string)
    (markdown : bool) :
  sends (broadcast_trace w recipients msg markdown)
  = sent_to msg markdown <$> recipients.
Proof.
  induction recipients as [|c rest IH]; [reflexivity|].
  cbn [broadcast_trace flat_map]. fold (broadcast_trace w rest msg markdown).
  change (SendMessage c msg markdown :: ?l ++ ?r)
    with ([SendMessage c msg markdown] ++ l ++ r).
  rewrite !sends_app, IH.
  destruct (send_message w c msg markdown); reflexivity.
Qed.

(** A delivery that fails with another error than [Unauthorized] ends the
    broadcast there: the recipients after it are not reached. *)
Lemma broadcast_interrupted (w : world) (before after : list Z) (c : Z)
    (msg : string) (markdown : bool) (e : exn) (s : bot) :
  transport_up w before msg markdown →
  send_message w c msg markdown = Raise e →
  is_Unauthorized e = false →
  broadcast w (before ++ c :: after) msg markdown s
  = (Raise e, s,
     broadcast_trace w before msg markdown ++ [SendMessage c msg markdown]).
Proof.
  intros Hup Hc He. induction before as [|b before IH].
  - cbn [app broadcast broadcast_trace flat_map]. rewrite bind_run.
    unfold try_except, send. run. rewrite Hc. run. rewrite He. reflexivity.
  - assert (Hrest : transport_up w before msg markdown)
      by (intros c' Hc'; apply Hup; by right).
    specialize (IH Hrest).
    cbn [app broadcast broadcast_trace flat_map]. rewrite bind_run.
    unfold try_except, send.
    destruct (Hup b ltac:(by left)) as [E|E]; run; rewrite E;
      cbv [is_Unauthorized]; run; rewrite IH; reflexivity.
Qed.

(** C9.  A broadcast goes through the whole list of recipients: when the
    delivery to a recipient fails with [Unauthorized] (and no delivery
    fails otherwise), the failure is printed and skipped, the loop ends
    normally, [send_message] was called once for every recipient in order,
    and every recipient whose delivery succeeds has received the message. *)
Theorem broadcast_survives_unauthorized (w : world) (recipients : list Z)
    (msg : string) (markdown : bool) (s : bot) :
  (∀ c, c ∈ recipients →
        send_message w c msg markdown = Ret tt
        ∨ send_message w c msg markdown = Raise Unauthorized) →
  let r := broadcast w recipients msg markdown s in
  outcome r = Ret tt
  ∧ final r = s
  ∧ sends (effects r) = sent_to msg markdown <$> recipients
  ∧ (∀ c, c ∈ recipients → send_message w c msg markdown = Ret tt →
          (c, msg, markdown) ∈ delivered w (effects r))
  ∧ (∀ c, c ∈ recipients → send_message w c msg markdown = Raise Unauthorized →
          Print ("Unauthorized for " +:+ pretty c) ∈ effects r).
Proof.
  intros Hup r. subst r. rewrite (broadcast_run w recipients msg markdown s Hup).
  cbn [outcome final effects fst snd].
  repeat split.
  - apply sends_broadcast_trace.
  - intros c Hc E. unfold delivered. rewrite sends_broadcast_trace.
    apply list_elem_of_In, filter_In. split.
    + apply list_elem_of_In. apply (list_elem_of_fmap_2 (sent_to msg markdown)), Hc.
    + unfold accepted. cbn. by rewrite E.
  - intros c Hc E. unfold broadcast_trace.
    apply list_elem_of_In, in_flat_map. exists c. split.
    + by apply list_elem_of_In.
    + rewrite E. right. by left.
Qed.

Lemma broadcast_survives_unauthorized_witness :
  let w := Sample.with_transport Sample.machine (Sample.blocked_by 2) in
  let r := broadcast w [1; 2; 3] "hello" true Sample.fresh in
  outcome r = Ret tt
  ∧ sends (effects r) = [(1, "hello", true); (2, "hello", true); (3, "hello", true)]
  ∧ delivered w (effects r) = [(1, "hello", true); (3, "hello", true)].
Proof.
  intros w r.
  destruct (broadcast_survives_unauthorized w [1; 2; 3] "hello" true Sample.fresh)
    as (Ho & _ & Hs & _).
  - intros c Hc. unfold w. cbn. unfold Sample.blocked_by.
    destruct (c =? 2); [by right | by left].
  - split; [exact Ho|]. split; [exact Hs|]. vm_compute. reflexivity.
Defined.

(** ** The poll loop *)

(** A turn in which the devices are read without error. *)
Lemma poll_cycle_run (w : world) (old_states : list (option string))
    (handles : list handle) (new_states : list string) (msg : string) (s : bot) :
  get_handles w = Ret handles →
  _query_once w handles = Ret (new_states, msg) →
  poll_cycle w old_states s =
  if bool_decide (Some <$> new_states ≠ old_states) then
    let r := broadcast w (_whitelist s) msg true s in
    (match outcome r with
     | Ret _ => Ret (Some <$> new_states)
     | Raise e => Raise e
     end, final r, Sleep (interval s) :: effects r)
  else (Ret old_states, s, [Sleep (interval s)]).
Proof.
  intros Hh Hq. unfold poll_cycle. run. rewrite Hh, Hq.
  destruct (bool_decide (Some <$> new_states ≠ old_states)); [|reflexivity].
  run. destruct (broadcast w (_whitelist s) msg true s) as [[[[]|e] s1] t1];
    cbn [outcome final effects fst snd]; rewrite ?app_nil_r; reflexivity.
Qed.

(** A turn in which reading the devices raises [e]. *)
Lemma poll_cycle_run_error (w : world) (old_states : list (option string))
    (handles : list handle) (e : exn) (s : bot) :
  get_handles w = Ret handles →
  _query_once w handles = Raise e →
  poll_cycle w old_states s =
  let r := broadcast w (_whitelist s) (format_exc e) false s in
  (match outcome r with
   | Ret _ => Ret old_states
   | Raise e' => Raise e'
   end, final r,
   Sleep (interval s) :: Print (format_exc e) :: effects r).
Proof.
  intros Hh Hq. unfold poll_cycle. run. rewrite Hh, Hq.
  run. destruct (broadcast w (_whitelist s) (format_exc e) false s)
    as [[[[]|e'] s1] t1];
    cbn [outcome final effects fst snd]; rewrite ?app_nil_r; reflexivity.
Qed.

(** The sentinel [[None] * n] equals a list of labels only when both are
    empty. *)
Lemma sentinel_differs (n : Z) (new_states : list string) :
  Some <$> new_states = sentinel n ↔ n <= 0 ∧ new_states = [].
Proof.
  unfold sentinel. split.
  - destruct new_states as [|l ls]; cbn.
    + intros E. split; [|reflexivity].
      destruct (Z.to_nat n) eqn:En; [lia|discriminate].
    + destruct (Z.to_nat n); cbn; intros E; discriminate.
  - intros [Hn ->]. replace (Z.to_nat n) with 0%nat by lia. reflexivity.
Qed.

(** Two lists that differ, differ at an index (a missing element being a
    difference). *)
Lemma list_differ_index {A} `{EqDecision A} (l1 l2 : list A) :
  l1 ≠ l2 ↔ ∃ i, l1 !! i ≠ l2 !! i.
Proof.
  split.
  - revert l2. induction l1 as [|x l1 IH]; intros [|y l2] Hne.
    + done.
    + by exists 0%nat.
    + by exists 0%nat.
    + destruct (decide (x = y)) as [->|Hxy].
      * destruct (IH l2) as [i Hi]; [congruence|]. by exists (S i).
      * exists 0%nat. cbn. congruence.
  - intros [i Hi] ->. by apply Hi.
Qed.

(** C1 (amended).  In a turn where the devices are read without error the
    loop broadcasts exactly when the new labels differ from the previous
    ones.  The same label at every index (hence the same length): nothing
    is sent.  A different label at some index, or a different length: the
    report is broadcast once, [send_message] being called once for every
    whitelist entry, in order, provided no delivery fails with an error
    other than [Unauthorized]; the new labels become the previous ones.
    The sentinel of the first turn, [n] times [None], differs from every
    list of labels, except when there is no device at all and both lists
    are empty. *)
Theorem poll_cycle_broadcasts_on_change (w : world)
    (old_states : list (option string)) (handles : list handle)
    (new_states : list string) (msg : string) (s : bot) :
  get_handles w = Ret handles →
  _query_once w handles = Ret (new_states, msg) →
  let r := poll_cycle w old_states s in
  ((∀ i, (Some <$> new_states) !! i = old_states !! i) →
   r = (Ret old_states, s, [Sleep (interval s)]) ∧ sends (effects r) = [])
  ∧ ((∃ i, (Some <$> new_states) !! i ≠ old_states !! i) →
     effects r
     = Sleep (interval s) :: effects (broadcast w (_whitelist s) msg true s)
     ∧ (transport_up w (_whitelist s) msg true →
        outcome r = Ret (Some <$> new_states)
        ∧ final r = s
        ∧ sends (effects r) = sent_to msg true <$> _whitelist s))
  ∧ (length new_states ≠ length old_states →
     ∃ i, (Some <$> new_states) !! i ≠ old_states !! i)
  ∧ (∀ n, 0 < n ∨ new_states ≠ [] →
          ∃ i, (Some <$> new_states) !! i ≠ sentinel n !! i).
Proof.
  intros Hh Hq r. subst r.
  rewrite (poll_cycle_run w old_states handles new_states msg s Hh Hq).
  split; [|split; [|split]].
  - intros Heq. apply list_eq in Heq.
    rewrite bool_decide_false by (intros Hne; by apply Hne). done.
  - intros Hi. apply list_differ_index in Hi.
    rewrite bool_decide_true by assumption. split; [reflexivity|].
    intros Hup.
    rewrite (broadcast_run w (_whitelist s) msg true s Hup).
    cbn [outcome final effects fst snd]. repeat split.
    change (Sleep (interval s) :: ?t) with ([Sleep (interval s)] ++ t).
    rewrite sends_app, sends_broadcast_trace. reflexivity.
  - intros Hlen. apply list_differ_index. intros E. apply Hlen.
    rewrite <- E. by rewrite length_fmap.
  - intros n Hn. apply list_differ_index. intros E.
    apply sentinel_differs in E. destruct E as [? ->].
    destruct Hn; [lia|done].
Qed.

Lemma poll_cycle_broadcasts_on_change_witness :
  let r := _poll_gpu Sample.machine [Sample.machine; Sample.machine] Sample.fresh in
  outcome r = Ret [Some "🤡OCCUPIED by alice💸"; Some "🚀AVAILABLE"]
  ∧ chat <$> sends (effects r) = [1; 2; 3]
  ∧ ∃ msg,
      let r1 := poll_cycle Sample.machine (sentinel 2) Sample.fresh in
      outcome r1 = Ret (Some <$> ["🤡OCCUPIED by alice💸"; "🚀AVAILABLE"])
      ∧ final r1 = Sample.fresh
      ∧ sends (effects r1) = sent_to msg true <$> [1; 2; 3].
Proof.
  intros r. split; [vm_compute; reflexivity|]. split; [vm_compute; reflexivity|].
  eexists.
  refine (proj2 (proj1 (proj2 (poll_cycle_broadcasts_on_change Sample.machine
            (sentinel 2) [Sample.gpu (2 * Sample.GiB) [100]; Sample.gpu 0 []]
            ["🤡OCCUPIED by alice💸"; "🚀AVAILABLE"] _ Sample.fresh _ _))
          _) _).
  - reflexivity.
  - vm_compute. reflexivity.
  - exists 0%nat. discriminate.
  - intros c _. by left.
Defined.

(** The claim C1 as stated fails twice.  On a machine without devices the
    sentinel and the first list of labels are both empty, and the first
    turn, though it reads the devices without error, sends nothing.  And
    when the labels differ but the network is down, the first delivery
    ends the loop: the other whitelist entries are not sent anything. *)
Lemma poll_first_turn_can_be_silent :
  (let w := Sample.with_devices Sample.machine [] in
   let r := _poll_gpu w [w] Sample.fresh in
   fst <$> (get_handles w ≫= _query_once w) = Ret []
   ∧ outcome r = Ret []
   ∧ sends (effects r) = []
   ∧ _whitelist Sample.fresh = [1; 2; 3])
  ∧ (let w := Sample.with_transport Sample.machine Sample.offline in
     let r := poll_cycle w (sentinel 2) Sample.fresh in
     fst <$> (get_handles w ≫= _query_once w)
     = Ret ["🤡OCCUPIED by alice💸"; "🚀AVAILABLE"]
     ∧ outcome r = Raise (TelegramError "NetworkError")
     ∧ chat <$> sends (effects r) = [1]
     ∧ _whitelist Sample.fresh = [1; 2; 3]).
Proof. vm_compute. repeat split. Qed.

(** C2 (amended).  In a turn where [_query_once] raises, the loop prints
    the text of the error and sends it, unformatted, to the whitelist
    entries in order; when no delivery fails with an error other than
    [Unauthorized], every entry is sent the text once, the previous labels
    and the bot's state are unchanged, and the loop goes on with the next
    turn. *)
Theorem poll_cycle_query_error (w : world) (old_states : list (option string))
    (handles : list handle) (e : exn) (s : bot) :
  get_handles w = Ret handles →
  _query_once w handles = Raise e →
  transport_up w (_whitelist s) (format_exc e) false →
  let r := poll_cycle w old_states s in
  outcome r = Ret old_states
  ∧ final r = s
  ∧ effects r
    = Sleep (interval s) :: Print (format_exc e)
      :: broadcast_trace w (_whitelist s) (format_exc e) false
  ∧ sends (effects r) = sent_to (format_exc e) false <$> _whitelist s
  ∧ ∀ ws, poll_loop (w :: ws) old_states s
          = (outcome (poll_loop ws old_states s),
             final (poll_loop ws old_states s),
             effects r ++ effects (poll_loop ws old_states s)).
Proof.
  intros Hh Hq Hup r.
  assert (Er : r = (Ret old_states, s,
                    Sleep (interval s) :: Print (format_exc e)
                    :: broadcast_trace w (_whitelist s) (format_exc e) false)).
  { subst r. rewrite (poll_cycle_run_error w old_states handles e s Hh Hq).
    rewrite (broadcast_run w (_whitelist s) (format_exc e) false s Hup).
    reflexivity. }
  rewrite Er. cbn [outcome final effects fst snd]. repeat split.
  - change (Sleep (interval s) :: Print (format_exc e) :: ?t)
      with ([Sleep (interval s); Print (format_exc e)] ++ t).
    rewrite sends_app, sends_broadcast_trace. reflexivity.
  - intros ws. cbn [poll_loop]. rewrite bind_run. fold r. rewrite Er.
    reflexivity.
Qed.

Lemma poll_cycle_query_error_witness :
  let w := Sample.with_transport
             (Sample.with_devices Sample.machine [Sample.lost])
             (Sample.blocked_by 2) in
  let r := poll_cycle w [Some "🚀AVAILABLE"] Sample.fresh in
  outcome r = Ret [Some "🚀AVAILABLE"]
  ∧ final r = Sample.fresh
  ∧ effects r
    = [Sleep 5; Print "pynvml.NVMLError: GPU is lost";
       SendMessage 1 "pynvml.NVMLError: GPU is lost" false;
       SendMessage 2 "pynvml.NVMLError: GPU is lost" false;
       Print "Unauthorized for 2";
       SendMessage 3 "pynvml.NVMLError: GPU is lost" false].
Proof.
  intros w r.
  destruct (poll_cycle_query_error w [Some "🚀AVAILABLE"] [Sample.lost]
              (NVMLError "GPU is lost") Sample.fresh) as (Ho & Hf & He & _).
  - reflexivity.
  - reflexivity.
  - intros c Hc. unfold w. cbn. unfold Sample.blocked_by.
    destruct (c =? 2); [by right | by left].
  - split; [exact Ho|]. split; [exact Hf|]. exact He.
Defined.

(** The claim C2 as stated fails when a delivery of the error text fails
    with an error other than [Unauthorized]: that error leaves the loop,
    which ends; the remaining whitelist entries are not sent the text.  It
    also fails when the error is raised while the handles are fetched,
    before [_query_once] is called: nothing is printed or sent, and the
    loop ends. *)
Lemma poll_error_turn_can_end_the_loop :
  (let w := Sample.with_transport
              (Sample.with_devices Sample.machine [Sample.lost])
              Sample.offline in
   let r := poll_loop [w; w] [Some "🚀AVAILABLE"] Sample.fresh in
   (get_handles w ≫= _query_once w) = Raise (NVMLError "GPU is lost")
   ∧ outcome r = Raise (TelegramError "NetworkError")
   ∧ effects r
     = [Sleep 5; Print "pynvml.NVMLError: GPU is lost";
        SendMessage 1 "pynvml.NVMLError: GPU is lost" false]
   ∧ _whitelist Sample.fresh = [1; 2; 3])
  ∧ (let w := Sample.without_handles Sample.machine in
     let r := poll_loop [w; w] [Some "🚀AVAILABLE"] Sample.fresh in
     outcome r = Raise (NVMLError "GPU is lost")
     ∧ effects r = [Sleep 5]).
Proof. vm_compute. repeat split. Qed.

(** ** Arguments of the commands *)

(** A token that [int()] rejects ends a privileged handler with that
    exception, before any reply. *)
Lemma occupy_bad_token (w : world) (upd : update) (arg : string) (e : exn)
    (s : bot) :
  from_user_id upd ∈ _whitelist s →
  py_int arg = Raise e →
  _occupy w upd [arg] s =
  (Raise e, s, [Print (from_user_username upd +:+ " tries to occupy some resources")]).
Proof.
  intros Hw Hp. unfold _occupy, whitelisted. run.
  rewrite bool_decide_true by exact Hw. cbn [negb]. rewrite Hp. reflexivity.
Qed.

Lemma set_interval_bad_token (w : world) (upd : update) (arg : string)
    (e : exn) (s : bot) :
  from_user_id upd ∈ _whitelist s →
  py_int arg = Raise e →
  _set_interval w upd [arg] s =
  (Raise e, s, [Print (from_user_username upd +:+ " tries to set the interval")]).
Proof.
  intros Hw Hp. unfold _set_interval, whitelisted. run.
  rewrite bool_decide_true by exact Hw. cbn [negb]. rewrite Hp. reflexivity.
Qed.

Lemma release_bad_token (w : world) (upd : update) (arg : string) (e : exn)
    (s : bot) :
  from_user_id upd ∈ _whitelist s →
  py_int arg = Raise e →
  _release w upd [arg] s =
  (Raise e, s, [Print (from_user_username upd +:+ " tries to release some resources")]).
Proof.
  intros Hw Hp. unfold _release, whitelisted. run.
  rewrite bool_decide_true by exact Hw. cbn [negb]. rewrite Hp. reflexivity.
Qed.

(** C8 (the code departs from it).  [/occ abc], [/set_interval abc] and
    [/rel abc] from a whitelisted caller pass the check of the number of
    arguments and then raise [ValueError] out of the handler, at
    [int(context.args[0])]: no usage message is sent. *)
Theorem non_numeric_argument_raises :
  let e := ValueError "invalid literal for int() with base 10: 'abc'" in
  _occupy Sample.machine Sample.subscriber ["abc"] Sample.fresh
  = (Raise e, Sample.fresh, [Print "ann tries to occupy some resources"])
  ∧ _set_interval Sample.machine Sample.subscriber ["abc"] Sample.fresh
    = (Raise e, Sample.fresh, [Print "ann tries to set the interval"])
  ∧ _release Sample.machine Sample.subscriber ["abc"] Sample.fresh
    = (Raise e, Sample.fresh, [Print "ann tries to release some resources"]).
Proof. vm_compute. repeat split. Qed.

(** ** Occupying *)

(** C5 (the code departs from it).  The replies of [_occupy] format the
    size with the specifier [f.1], which Python rejects with [ValueError].
    When the allocator fails twice and would succeed the third time, the
    first failure is followed by that [ValueError]: one allocation is
    attempted, no second or third one, and nothing is replied.  When the
    allocator succeeds at once, the block is stored under the device id and
    the [ValueError] is raised instead of the reply. *)
Theorem occupy_stops_at_first_attempt :
  _occupy (Sample.with_allocator Sample.machine Sample.third_time_lucky)
          Sample.subscriber ["0"] Sample.fresh
  = (Raise (ValueError "Invalid format specifier"), Sample.fresh,
     [Print "ann tries to occupy some resources"; SelectDevice 0;
      DeviceArray 14280766259])
  ∧ outcome (_occupy Sample.machine Sample.subscriber ["0"] Sample.fresh)
    = Raise (ValueError "Invalid format specifier")
  ∧ effects (_occupy Sample.machine Sample.subscriber ["0"] Sample.fresh)
    = [Print "ann tries to occupy some resources"; SelectDevice 0;
       DeviceArray 14280766259]
  ∧ cuda_buffers (final (_occupy Sample.machine Sample.subscriber ["0"]
                           Sample.fresh))
    = {[ 0 := {| nbytes := 14280766259 |} ]}.
Proof. vm_compute. repeat split. Qed.

(** ** The usage bar *)

Lemma filled_app (a b : string) : filled (a +:+ b) = (filled a + filled b)%nat.
Proof.
  unfold filled. induction a as [|c a IH]; [reflexivity|].
  change (String c a +:+ b) with (String c (a +:+ b)).
  cbn [list_ascii_of_string]. rewrite !filter_cons.
  destruct (decide (c = "#"%char)); cbn [length]; rewrite IH; reflexivity.
Qed.

Lemma filled_hashes (n : nat) : filled (repeat_string "#" n) = n.
Proof.
  induction n as [|n IH]; [reflexivity|].
  cbn [repeat_string]. rewrite filled_app, IH. reflexivity.
Qed.

Lemma filled_blanks (n : nat) : filled (repeat_string " " n) = 0%nat.
Proof.
  induction n as [|n IH]; [reflexivity|].
  cbn [repeat_string]. rewrite filled_app, IH. reflexivity.
Qed.

(** [pbar] fills [sep + 1] segments, whatever the width. *)
Lemma pbar_filled (current maximum size sep : Z) :
  pbar_sep current maximum size = Ret sep →
  ∃ bar, pbar current maximum size = Ret bar
         ∧ filled bar = Z.to_nat (sep + 1).
Proof.
  intros E. unfold pbar. rewrite E. cbn [mbind result_bind].
  eexists. split; [reflexivity|].
  rewrite !filled_app, filled_hashes, filled_blanks.
  unfold range_len. rewrite Z.sub_0_r.
  change (filled "`|") with 0%nat. change (filled "|`") with 0%nat. lia.
Qed.

(** A full device: [maximum / maximum] is exactly [1.0]. *)
Lemma truediv_same (maximum : Z) :
  0 < maximum →
  PyFloat.truediv maximum maximum = Some (Qmake (2 ^ 52) (2 ^ 52)).
Proof.
  intros Hm. destruct maximum as [|p|p]; try lia.
  unfold PyFloat.truediv, PyFloat.truediv_pos, PyFloat.round53.
  cbn [Qnum Qden]. unfold PyFloat.round53_pos.
  assert (E : PyFloat.flog2 (Z.pos p) (Z.pos p) = 0).
  { unfold PyFloat.flog2. rewrite Z.sub_diag.
    change (Z.max 0 0) with 0. change (Z.max 0 (- 0)) with 0.
    rewrite Z.leb_refl. reflexivity. }
  rewrite E. change (0 - (PyFloat.prec - 1)) with (- 52).
  change (Z.max 0 (- - 52)) with 52. change (Z.max 0 (- 52)) with 0.
  rewrite Z.pow_0_r, !Z.mul_1_r.
  rewrite (Z.mul_comm (Z.pos p)), rne_exact by lia.
  reflexivity.
Qed.

(** On a full device the bar of [get_usage_msg], 24 segments wide, has 25
    segments filled. *)
Lemma pbar_full (maximum : Z) :
  0 < maximum →
  pbar maximum maximum 24 = Ret "`|#########################|`".
Proof.
  intros Hm. unfold pbar, pbar_sep. rewrite (truediv_same maximum Hm).
  vm_compute. reflexivity.
Qed.

(** An empty device: one segment is filled. *)
Lemma pbar_empty (maximum size : Z) :
  0 < maximum → 0 <= size →
  ∃ bar, pbar 0 maximum size = Ret bar ∧ filled bar = 1%nat.
Proof.
  intros Hm Hs. apply (pbar_filled 0 maximum size 0).
  destruct maximum as [|p|p]; try lia. reflexivity.
Qed.

(** C4 (the code departs from it).  With [used = total = 16 GiB] and a
    width of 24, [round(used / total * 24)] is 24, and the bar has 25
    filled segments: one more than its width, and one more than
    [min(24, 24 + 1)].  The same happens as soon as the device is 98% full,
    for instance with 256 MiB left of 16 GiB. *)
Theorem pbar_overflows_when_full :
  pbar_sep (16 * 2 ^ 30) (16 * 2 ^ 30) 24 = Ret 24
  ∧ pbar (16 * 2 ^ 30) (16 * 2 ^ 30) 24 = Ret "`|#########################|`"
  ∧ pbar (16 * 2 ^ 30 - 256 * 2 ^ 20) (16 * 2 ^ 30) 24
    = Ret "`|#########################|`"
  ∧ filled "`|#########################|`" = 25%nat
  ∧ Z.min 24 (24 + 1) = 24.
Proof. vm_compute. repeat split. Qed.

(** * Further properties *)

(** ** Rounding to binary64 is monotone *)

Section RoundingOrder.

Import PyFloat.

(** [rne] is monotone on rationals. *)
Lemma rne_mono (a b c d : Z) :
  0 < b -> 0 < d -> a * d <= c * b -> rne a b <= rne c d.
Proof.
  intros Hb Hd H. unfold rne.
  pose proof (Z.div_mod a b ltac:(lia)) as Ea.
  pose proof (Z.mod_pos_bound a b Hb) as Ma.
  pose proof (Z.div_mod c d ltac:(lia)) as Ec.
  pose proof (Z.mod_pos_bound c d Hd) as Mc.
  set (f1 := a / b) in *. set (r1 := a mod b) in *.
  set (f2 := c / d) in *. set (r2 := c mod d) in *.
  assert (Hf : f1 <= f2).
  { destruct (Z_le_gt_dec f1 f2) as [|Hgt]; [assumption|exfalso].
    assert (r2 * b < d * b) by nia. assert (0 <= r1 * d) by nia.
    assert (b * d <= b * d * (f1 - f2)) by nia. nia. }
  destruct (Z.eq_dec f1 f2) as [E|NE].
  - rewrite <- E in *. clear E.
    assert (Hr : r1 * d <= r2 * b) by nia.
    destruct (Z.compare_spec (2 * r1) b) as [C1|C1|C1];
      destruct (Z.compare_spec (2 * r2) d) as [C2|C2|C2];
      destruct (Z.even f1); try lia; nia.
  - assert (f1 + 1 <= f2) by lia.
    destruct (Z.compare_spec (2 * r1) b) as [C1|C1|C1];
      destruct (Z.compare_spec (2 * r2) d) as [C2|C2|C2];
      destruct (Z.even f1); destruct (Z.even f2); lia.
Qed.

Lemma pow2Q_mono (a b : Z) : a <= b -> (pow2Q a <= pow2Q b)%Q.
Proof.
  intros Hab. unfold pow2Q, Qle; cbn [Qnum Qden].
  pose proof (pow2_pos a). pose proof (pow2_pos (- a)).
  pose proof (pow2_pos b). pose proof (pow2_pos (- b)).
  rewrite !Zpos_to_pos by assumption.
  pose proof (pow2_shift a (b - a) ltac:(lia)) as E.
  replace (a + (b - a)) with b in E by lia.
  assert (1 <= 2 ^ (b - a)) by (apply (Z.pow_le_mono_r 2 0); lia).
  rewrite E. nia.
Qed.

(** The binary exponent brackets the value. *)
Lemma flog2_bracket (n : Z) (p : positive) :
  0 < n ->
  (pow2Q (flog2 n (Zpos p)) <= Qmake n p)%Q
  /\ (Qmake n p < pow2Q (flog2 n (Zpos p) + 1))%Q.
Proof.
  intros Hn. destruct (flog2_spec n (Zpos p) Hn ltac:(lia)) as [L U].
  set (e := flog2 n (Zpos p)) in *.
  pose proof (pow2_pos e). pose proof (pow2_pos (- e)).
  pose proof (pow2_pos (e + 1)). pose proof (pow2_pos (- (e + 1))).
  pose proof (pow2_shift e 1 ltac:(lia)) as E. rewrite Z.pow_1_r in E.
  unfold pow2Q, Qle, Qlt; cbn [Qnum Qden].
  rewrite !Zpos_to_pos by assumption. split; [lia|].
  apply (Z.mul_lt_mono_pos_r (2 ^ Z.max 0 (- e))); [assumption|].
  replace (2 ^ Z.max 0 (e + 1) * Z.pos p * 2 ^ Z.max 0 (- e))
    with (Z.pos p * (2 ^ Z.max 0 (e + 1) * 2 ^ Z.max 0 (- e))) by ring.
  rewrite E. nia.
Qed.

Lemma flog2_mono (n1 n2 : Z) (p1 p2 : positive) :
  0 < n1 -> (Qmake n1 p1 <= Qmake n2 p2)%Q ->
  flog2 n1 (Zpos p1) <= flog2 n2 (Zpos p2).
Proof.
  intros Hn1 Hq.
  assert (Hn2 : 0 < n2) by (revert Hq; unfold Qle; cbn [Qnum Qden]; nia).
  destruct (flog2_bracket n1 p1 Hn1) as [L1 _].
  destruct (flog2_bracket n2 p2 Hn2) as [_ U2].
  destruct (Z_le_gt_dec (flog2 n1 (Zpos p1)) (flog2 n2 (Zpos p2))) as [|Hgt];
    [assumption|exfalso].
  assert (pow2Q (flog2 n2 (Zpos p2) + 1) <= pow2Q (flog2 n1 (Zpos p1)))%Q
    by (apply pow2Q_mono; lia).
  apply (Qlt_irrefl (Qmake n2 p2)).
  eapply Qlt_le_trans; [exact U2|].
  eapply Qle_trans; [eassumption|]. eapply Qle_trans; eassumption.
Qed.

(** Rounding to binary64 is monotone, on positive values... *)
Lemma round53_pos_mono (n1 n2 : Z) (p1 p2 : positive) :
  0 < n1 -> (Qmake n1 p1 <= Qmake n2 p2)%Q ->
  (round53_pos n1 (Zpos p1) <= round53_pos n2 (Zpos p2))%Q.
Proof.
  intros Hn1 Hq.
  assert (Hn2 : 0 < n2) by (revert Hq; unfold Qle; cbn [Qnum Qden]; nia).
  pose proof (flog2_mono n1 n2 p1 p2 Hn1 Hq) as He.
  destruct (Z.eq_dec (flog2 n1 (Zpos p1)) (flog2 n2 (Zpos p2))) as [E|NE].
  - unfold round53_pos. rewrite E.
    set (s := flog2 n2 (Zpos p2) - (prec - 1)).
    pose proof (pow2_pos s). pose proof (pow2_pos (- s)).
    unfold Qle; cbn [Qnum Qden].
    apply Z.mul_le_mono_nonneg_r; [lia|].
    apply Z.mul_le_mono_nonneg_r; [lia|].
    apply rne_mono; [nia|nia|].
    revert Hq. unfold Qle; cbn [Qnum Qden]. nia.
  - destruct (round53_pos_bounds n1 (Zpos p1) Hn1 ltac:(lia)) as [_ U1].
    destruct (round53_pos_bounds n2 (Zpos p2) Hn2 ltac:(lia)) as [L2 _].
    eapply Qle_trans; [exact U1|]. eapply Qle_trans; [|exact L2].
    apply pow2Q_mono. lia.
Qed.

Lemma round53_pos_positive (n : Z) (p : positive) :
  0 < n -> (0 < round53_pos n (Zpos p))%Q.
Proof.
  intros Hn.
  destruct (round53_pos_bounds n (Zpos p) Hn ltac:(lia)) as [L _].
  eapply Qlt_le_trans; [|exact L].
  unfold pow2Q, Qlt; cbn [Qnum Qden].
  pose proof (pow2_pos (flog2 n (Zpos p))). lia.
Qed.

(** ... and on all values. *)
Lemma round53_mono (q1 q2 : Q) : (q1 <= q2)%Q -> (round53 q1 <= round53 q2)%Q.
Proof.
  destruct q1 as [n1 p1], q2 as [n2 p2]. intros Hq.
  unfold round53; cbn [Qnum Qden].
  destruct n1 as [|a|a], n2 as [|b|b];
    try (exfalso; revert Hq; unfold Qle; cbn [Qnum Qden]; lia).
  - apply Qle_refl.
  - apply Qlt_le_weak, round53_pos_positive. lia.
  - apply round53_pos_mono; [lia|exact Hq].
  - apply (Qopp_le_compat 0), Qlt_le_weak, round53_pos_positive. lia.
  - apply Qle_trans with 0%Q.
    + apply (Qopp_le_compat 0), Qlt_le_weak, round53_pos_positive. lia.
    + apply Qlt_le_weak, round53_pos_positive. lia.
  - apply Qopp_le_compat. apply round53_pos_mono; [cbn; lia|].
    revert Hq. unfold Qle; cbn [Qnum Qden]. lia.
Qed.

Lemma round_mono (x y : Q) : (x <= y)%Q -> PyFloat.round x <= PyFloat.round y.
Proof.
  intros H. unfold PyFloat.round. apply rne_mono; [lia|lia|exact H].
Qed.

(** Equal rationals round to equal doubles. *)
Lemma round53_Qeq (q1 q2 : Q) : (q1 == q2)%Q -> (round53 q1 == round53 q2)%Q.
Proof.
  intros E. apply Qle_antisym; apply round53_mono; rewrite E; apply Qle_refl.
Qed.

Lemma round_Qeq (x y : Q) : (x == y)%Q -> PyFloat.round x = PyFloat.round y.
Proof.
  intros E. apply Z.le_antisymm; apply round_mono; rewrite E; apply Qle_refl.
Qed.

(** An integer below [2^53] is a double. *)
Lemma of_int_exact (z : Z) : 0 <= z < 2 ^ 53 -> (of_int z == inject_Z z)%Q.
Proof.
  intros [Hz Hlt]. unfold of_int, round53, inject_Z; cbn [Qnum Qden].
  destruct z as [|p|p]; [reflexivity| |lia].
  set (z := Zpos p) in *.
  destruct (Z.log2_spec z ltac:(lia)) as [L1 L2].
  assert (HL : 0 <= Z.log2 z <= 52).
  { split; [apply Z.log2_nonneg|].
    destruct (Z_le_gt_dec (Z.log2 z) 52); [assumption|exfalso].
    assert (2 ^ 53 <= 2 ^ Z.log2 z) by (apply Z.pow_le_mono_r; lia). lia. }
  assert (E : flog2 z 1 = Z.log2 z).
  { unfold flog2. change (Z.log2 1) with 0. rewrite Z.sub_0_r.
    replace (Z.max 0 (Z.log2 z)) with (Z.log2 z) by lia.
    replace (Z.max 0 (- Z.log2 z)) with 0 by lia.
    rewrite Z.pow_0_r, Z.mul_1_l, Z.mul_1_r.
    destruct (Z.leb_spec (2 ^ Z.log2 z) z); [reflexivity|lia]. }
  unfold round53_pos. rewrite E. unfold prec.
  replace (Z.max 0 (- (Z.log2 z - (53 - 1)))) with (52 - Z.log2 z) by lia.
  replace (Z.max 0 (Z.log2 z - (53 - 1))) with 0 by lia.
  rewrite Z.pow_0_r, !Z.mul_1_r.
  replace (z * 2 ^ (52 - Z.log2 z)) with ((z * 2 ^ (52 - Z.log2 z)) * 1) at 1 by lia.
  rewrite rne_exact by lia.
  assert (0 < 2 ^ (52 - Z.log2 z)) by (apply Z.pow_pos_nonneg; lia).
  unfold Qeq; cbn [Qnum Qden]. rewrite Zpos_to_pos by assumption. lia.
Qed.

(** ** The usage bar, continued *)

Lemma pbar_sep_pos (current size : Z) (p : positive) :
  pbar_sep current (Zpos p) size
  = Ret (PyFloat.round (mul (round53 (Qmake current p)) (of_int size))).
Proof. reflexivity. Qed.

Lemma of_int_nonneg (z : Z) : 0 <= z -> (0 <= of_int z)%Q.
Proof.
  intros Hz. change 0%Q with (round53 0). apply round53_mono.
  unfold Qle; cbn. lia.
Qed.

Lemma pbar_sep_mono (c1 c2 maximum size : Z) :
  0 < maximum -> 0 <= size -> c1 <= c2 ->
  exists s1 s2,
    pbar_sep c1 maximum size = Ret s1
    /\ pbar_sep c2 maximum size = Ret s2
    /\ s1 <= s2.
Proof.
  intros Hm Hs Hc. destruct maximum as [|p|p]; try lia.
  rewrite !pbar_sep_pos. eexists _, _. split; [reflexivity|]. split; [reflexivity|].
  apply round_mono. unfold mul. apply round53_mono.
  apply Qmult_le_compat_r; [|by apply of_int_nonneg].
  apply round53_mono. unfold Qle; cbn [Qnum Qden]. nia.
Qed.

Lemma pbar_sep_zero (maximum size : Z) :
  0 < maximum -> pbar_sep 0 maximum size = Ret 0.
Proof. intros Hm. destruct maximum as [|p|p]; try lia. reflexivity. Qed.

Lemma pbar_sep_full (maximum size : Z) :
  0 < maximum -> 0 <= size < 2 ^ 53 ->
  pbar_sep maximum maximum size = Ret size.
Proof.
  intros Hm Hs. unfold pbar_sep. rewrite (truediv_same maximum Hm).
  f_equal. unfold mul.
  transitivity (PyFloat.round (inject_Z size)).
  - apply round_Qeq.
    apply Qeq_trans with (round53 (inject_Z size));
      [|exact (of_int_exact size Hs)].
    apply round53_Qeq. rewrite (of_int_exact size Hs).
    unfold Qeq, Qmult, inject_Z; cbn [Qnum Qden]. lia.
  - unfold PyFloat.round, inject_Z; cbn [Qnum Qden].
    replace size with (size * 1) at 1 by lia. apply rne_exact. lia.
Qed.

Lemma length_append (a b : string) :
  String.length (a +:+ b) = (String.length a + String.length b)%nat.
Proof.
  induction a as [|c a IH]; [reflexivity|].
  change (String c a +:+ b) with (String c (a +:+ b)).
  cbn [String.length]. by rewrite IH.
Qed.

Lemma length_repeat_string (c : string) (n : nat) :
  String.length (repeat_string c n) = (n * String.length c)%nat.
Proof.
  induction n as [|n IH]; [reflexivity|].
  cbn [repeat_string]. rewrite length_append, IH. lia.
Qed.



(** X2.  For [0 <= current <= maximum], [0 < maximum] and a width below
    [2^53], the bar has at least one filled segment and at most [size + 1];
    its text is [size + 4] characters long, or one more when [size + 1]
    segments are filled. *)
Theorem pbar_shape (current maximum size : Z) :
  0 < maximum -> 0 <= size < 2 ^ 53 -> 0 <= current <= maximum ->
  exists bar,
    pbar current maximum size = Ret bar
    /\ (1 <= filled bar <= Z.to_nat size + 1)%nat
    /\ String.length bar = (4 + Nat.max (Z.to_nat size) (filled bar))%nat.
Proof.
  intros Hm Hs [Hc0 Hc1].
  destruct (pbar_sep_mono 0 current maximum size Hm ltac:(lia) Hc0)
    as (z & sep & Ez & E & Hlo).
  rewrite (pbar_sep_zero maximum size Hm) in Ez. injection Ez as <-.
  destruct (pbar_sep_mono current maximum maximum size Hm ltac:(lia) Hc1)
    as (sep' & top & E' & Et & Hhi).
  rewrite E in E'. injection E' as <-.
  rewrite (pbar_sep_full maximum size Hm Hs) in Et. injection Et as <-.
  destruct (pbar_filled current maximum size sep E) as (bar & B & F).
  exists bar. split; [exact B|]. split; [lia|].
  revert B. unfold pbar. rewrite E. cbn [mbind result_bind].
  intros [= <-]. rewrite !length_append, !length_repeat_string.
  rewrite !filled_app, filled_hashes, filled_blanks. unfold range_len.
  change (String.length "`|") with 2%nat. change (String.length "|`") with 2%nat.
  change (String.length "#") with 1%nat. change (String.length " ") with 1%nat.
  change (filled "`|") with 0%nat. change (filled "|`") with 0%nat. lia.
Qed.

Lemma pbar_shape_witness :
  exists bar,
    pbar (2 * 2 ^ 30) (16 * 2 ^ 30) 24 = Ret bar
    /\ (1 <= filled bar <= Z.to_nat 24 + 1)%nat
    /\ String.length bar = (4 + Nat.max (Z.to_nat 24) (filled bar))%nat.
Proof. apply pbar_shape; lia. Defined.

End RoundingOrder.

(** ** The interval *)

(** X3.  [/set_interval <n>] from a whitelisted caller changes the interval
    exactly when [1 <= n <= 3600], and confirms it; outside that range it
    replies with the bounds and changes nothing.  The whitelist and the
    reservations are never touched. *)
Theorem set_interval_bounds (w : world) (upd : update) (arg : string)
    (n : Z) (s : bot) :
  from_user_id upd ∈ _whitelist s →
  py_int arg = Ret n →
  let r := _set_interval w upd [arg] s in
  outcome r = Ret tt
  ∧ _whitelist (final r) = _whitelist s
  ∧ cuda_buffers (final r) = cuda_buffers s
  ∧ (1 <= n <= 3600 →
     interval (final r) = n
     ∧ replies (effects r) = ["Interval set to " +:+ pretty n +:+ "s"])
  ∧ (¬ (1 <= n <= 3600) →
     final r = s
     ∧ replies (effects r) = ["Interval must be between 1s and 3600s"]).
Proof.
  intros Hw Hp r. subst r. unfold _set_interval, whitelisted. run.
  rewrite bool_decide_true by exact Hw. cbn [negb]. rewrite Hp.
  destruct (Z.ltb_spec n 1); [|destruct (Z.gtb_spec n (60 * 60))];
    cbn [orb]; repeat split; try done; intros; lia.
Qed.

Lemma set_interval_bounds_witness :
  let r := _set_interval Sample.machine Sample.subscriber ["60"] Sample.fresh in
  let r' := _set_interval Sample.machine Sample.subscriber ["3601"] Sample.fresh in
  interval (final r) = 60
  ∧ replies (effects r) = ["Interval set to 60s"]
  ∧ final r' = Sample.fresh
  ∧ replies (effects r') = ["Interval must be between 1s and 3600s"].
Proof.
  intros r r'.
  destruct (set_interval_bounds Sample.machine Sample.subscriber "60" 60
              Sample.fresh) as (_ & _ & _ & Hin & _).
  { apply (bool_decide_unpack _). vm_compute. exact I. }
  { reflexivity. }
  destruct (set_interval_bounds Sample.machine Sample.subscriber "3601" 3601
              Sample.fresh) as (_ & _ & _ & _ & Hout).
  { apply (bool_decide_unpack _). vm_compute. exact I. }
  { reflexivity. }
  destruct (Hin ltac:(lia)) as [H1 H2]. destruct (Hout ltac:(lia)) as [H3 H4].
  repeat split; assumption.
Defined.

Lemma occupy_interval (w : world) (upd : update) (args : list string) (s : bot) :
  interval (final (_occupy w upd args s)) = interval s.
Proof.
  unfold _occupy. run.
  destruct (whitelisted s (from_user_id upd)); cbn [negb]; [|reflexivity].
  destruct args as [|arg [|? ?]]; try reflexivity.
  destruct (py_int arg) as [gid|]; [|reflexivity].
  destruct (out_of_range w gid) as [[]|]; try reflexivity.
  - destruct (nvmlDeviceGetCount w); reflexivity.
  - destruct (nvmlDeviceGetHandleByIndex w gid) as [h|]; [|reflexivity].
    destruct (nvmlDeviceGetMemoryInfo h) as [info|]; [|reflexivity].
    rewrite occupy_loop_run.
    destruct (cuda_device_array w 0 _) as [b|[]]; reflexivity.
Qed.

Lemma release_interval (w : world) (upd : update) (args : list string) (s : bot) :
  interval (final (_release w upd args s)) = interval s.
Proof.
  unfold _release. run.
  destruct (whitelisted s (from_user_id upd)); cbn [negb]; [|done].
  destruct args as [|arg [|? ?]]; [| |done].
  - destruct (nvmlDeviceGetCount w) as [n|]; [|done].
    destruct (release_all_final (py_range n) s) as (_ & _ & Hi & _).
    destruct (release_all (py_range n) s) as [[r s1] t1]. done.
  - destruct (py_int arg) as [gid|]; [|done].
    destruct (release_all_final [gid] s) as (_ & _ & Hi & _).
    destruct (out_of_range w gid) as [[]|]; [| |done].
    + destruct (nvmlDeviceGetCount w); [|done].
      run. destruct (release_all [gid] s) as [[r s1] t1]. done.
    + run. destruct (release_all [gid] s) as [[r s1] t1]. done.
Qed.

Lemma set_interval_interval (w : world) (upd : update) (args : list string)
    (s : bot) :
  1 <= interval s <= 3600 →
  1 <= interval (final (_set_interval w upd args s)) <= 3600.
Proof.
  intros Hs. unfold _set_interval. run.
  destruct (whitelisted s (from_user_id upd)); cbn [negb]; [|done].
  destruct args as [|arg [|? ?]]; [done| |done].
  destruct (py_int arg) as [i|]; [|done].
  destruct (Z.ltb_spec i 1); [done|].
  destruct (Z.gtb_spec i (60 * 60)); [done|]. cbn. lia.
Qed.

(** X4.  Whatever privileged commands the bot has handled since it started,
    on a machine with [n] devices: the whitelist is the one it was started
    with, every reservation is for a device in [[0, n)], and the interval
    lies in [[1, 3600]]. *)
Theorem reachable_invariants (n : Z) (whitelist : list Z) (s : bot) :
  reachable n whitelist s →
  _whitelist s = whitelist
  ∧ buffers_in_range n s
  ∧ 1 <= interval s <= 3600.
Proof.
  intros Hr. split; [by apply (reachable_whitelist n)|].
  split; [by apply (reachable_in_range n whitelist)|].
  induction Hr as [|s c w upd args Hr IH Hc]; [cbn; lia|].
  destruct c; cbn [dispatch].
  - by rewrite occupy_interval.
  - by rewrite release_interval.
  - by apply set_interval_interval.
Qed.

Lemma reachable_invariants_witness :
  let s1 := final (_occupy Sample.machine Sample.subscriber ["1"] Sample.fresh) in
  let s2 := final (_set_interval Sample.machine Sample.subscriber ["60"] s1) in
  cuda_buffers s2 !! 1 = Some {| nbytes := 16320875724 |}
  ∧ interval s2 = 60
  ∧ _whitelist s2 = [1; 2; 3]
  ∧ buffers_in_range 2 s2
  ∧ 1 <= interval s2 <= 3600.
Proof.
  intros s1 s2. split; [vm_compute; reflexivity|]. split; [reflexivity|].
  apply (reachable_invariants 2 [1; 2; 3] s2).
  apply (reachable_step 2 [1; 2; 3] s1 set_interval); [|reflexivity].
  apply (reachable_step 2 [1; 2; 3] Sample.fresh occ); [|reflexivity].
  apply reachable_init.
Defined.

(** ** Access control, continued *)

(** X5.  Every privileged command, [/occ], [/rel] and [/set_interval], turns
    away a caller who is not on the whitelist, whatever the arguments:
    the rejection naming the caller is the only effect and the state is
    unchanged. *)
Theorem privileged_commands_reject_strangers (c : command) (w : world)
    (upd : update) (args : list string) (s : bot) :
  from_user_id upd ∉ _whitelist s →
  dispatch c w upd args s
  = (Ret tt, s,
     [ReplyText ("You are not yet on the whitelist. Add "
                 +:+ pretty (from_user_id upd)
                 +:+ " to your config to receive notifications from me")
                false]).
Proof.
  intros H.
  destruct c; cbn [dispatch];
    unfold _occupy, _release, _set_interval, whitelisted; run;
    rewrite bool_decide_false by exact H; reflexivity.
Qed.

Lemma privileged_commands_reject_strangers_witness :
  dispatch rel Sample.machine Sample.stranger [] Sample.fresh
  = (Ret tt, Sample.fresh,
     [ReplyText "You are not yet on the whitelist. Add 9 to your config to receive notifications from me" false]).
Proof.
  apply (privileged_commands_reject_strangers rel Sample.machine Sample.stranger
           [] Sample.fresh).
  apply (bool_decide_unpack _). vm_compute. exact I.
Defined.

(** X6.  A whitelisted caller who gives the wrong number of arguments gets a
    usage text and nothing happens: [/occ] and [/set_interval] want exactly
    one argument, [/rel] at most one.  The usage text of [/set_interval]
    is the one of [/rel]. *)
Theorem wrong_arity_is_harmless (w : world) (upd : update)
    (args : list string) (s : bot) :
  from_user_id upd ∈ _whitelist s →
  (length args ≠ 1%nat →
   outcome (_occupy w upd args s) = Ret tt
   ∧ final (_occupy w upd args s) = s
   ∧ replies (effects (_occupy w upd args s)) = ["Usage: /occ <gpu_id>"]
   ∧ outcome (_set_interval w upd args s) = Ret tt
   ∧ final (_set_interval w upd args s) = s
   ∧ replies (effects (_set_interval w upd args s))
     = ["Usage: /rel <gpu_id> to release <gpu_id> or simply /rel to release all"])
  ∧ ((1 < length args)%nat →
     outcome (_release w upd args s) = Ret tt
     ∧ final (_release w upd args s) = s
     ∧ replies (effects (_release w upd args s))
       = ["Usage: /rel <gpu_id> to release <gpu_id> or simply /rel to release all"]).
Proof.
  intros Hw. split; intros Hlen;
    unfold _occupy, _set_interval, _release, whitelisted; run;
    rewrite bool_decide_true by exact Hw; cbn [negb];
    destruct args as [|a [|b rest]]; cbn [length] in Hlen; try lia; done.
Qed.

Lemma wrong_arity_is_harmless_witness :
  replies (effects (_occupy Sample.machine Sample.subscriber [] Sample.fresh))
  = ["Usage: /occ <gpu_id>"]
  ∧ final (_release Sample.machine Sample.subscriber ["0"; "1"] Sample.fresh)
    = Sample.fresh.
Proof.
  split.
  - refine (proj1 (proj2 (proj2 (proj1 (wrong_arity_is_harmless Sample.machine
              Sample.subscriber [] Sample.fresh _) _)))).
    + apply (bool_decide_unpack _). vm_compute. exact I.
    + cbn. lia.
  - refine (proj1 (proj2 (proj2 (wrong_arity_is_harmless Sample.machine
              Sample.subscriber ["0"; "1"] Sample.fresh _) _))).
    + apply (bool_decide_unpack _). vm_compute. exact I.
    + cbn. lia.
Defined.

(** ** Releasing, continued *)

Lemma replies_app (t1 t2 : list effect) :
  replies (t1 ++ t2) = replies t1 ++ replies t2.
Proof. unfold replies. apply omap_app. Qed.

Lemma release_one_reply (gid : Z) (s : bot) :
  replies (effects (release_one gid s)) = [release_reply s gid].
Proof.
  unfold release_reply. destruct (cuda_buffers s !! gid) as [b|] eqn:E.
  - by rewrite (release_one_present gid s b E).
  - by rewrite (release_one_absent gid s E).
Qed.

(** The loop of [_release] over distinct ids: every id is answered by
    what the state held for it before the loop, and is free after it. *)
Lemma release_all_run (gids : list Z) (s : bot) :
  NoDup gids →
  outcome (release_all gids s) = Ret tt
  ∧ replies (effects (release_all gids s)) = release_reply s <$> gids
  ∧ ∀ g, cuda_buffers (final (release_all gids s)) !! g
         = if bool_decide (g ∈ gids) then None else cuda_buffers s !! g.
Proof.
  revert s. induction gids as [|gid gids IH]; intros s Hnd.
  - cbn. split; [done|]. split; [done|]. intros g.
    rewrite bool_decide_false; [done|]. apply not_elem_of_nil.
  - apply NoDup_cons in Hnd as [Hnotin Hnd].
    cbn [release_all]. rewrite bind_run.
    destruct (release_one_final gid s) as (Ho & _ & _ & Hb).
    pose proof (release_one_reply gid s) as Hr.
    destruct (release_one gid s) as [[r s1] t1].
    cbn [outcome final effects fst snd] in *. subst r.
    cbn [outcome final effects fst snd].
    destruct (IH s1 Hnd) as (Ho' & Hr' & Hb').
    split; [exact Ho'|]. split.
    + rewrite replies_app, Hr, Hr'. cbn [fmap list_fmap app]. f_equal.
      apply list_fmap_ext. intros i g Hg. unfold release_reply. rewrite Hb.
      rewrite lookup_delete_ne; [done|].
      intros ->. apply Hnotin. by apply list_elem_of_lookup_2 in Hg.
    + intros g. rewrite Hb', Hb.
      destruct (decide (g = gid)) as [->|Hne].
      * rewrite (bool_decide_true (gid ∈ gid :: gids)) by (by left).
        rewrite lookup_delete_eq. by destruct (bool_decide (gid ∈ gids)).
      * rewrite lookup_delete_ne by done.
        destruct (decide (g ∈ gids)) as [Hin|Hnin].
        -- rewrite !bool_decide_true; [done| by right | done].
        -- rewrite !bool_decide_false; [done| |done].
           intros [?|?]%elem_of_cons; done.
Qed.

Lemma elem_of_py_range (n g : Z) : g ∈ py_range n ↔ 0 <= g < n.
Proof.
  unfold py_range. rewrite list_elem_of_fmap. split.
  - intros (i & -> & Hi). apply elem_of_seq in Hi. lia.
  - intros Hg. exists (Z.to_nat g). split; [lia|]. apply elem_of_seq. lia.
Qed.

Lemma NoDup_py_range (n : Z) : NoDup (py_range n).
Proof.
  unfold py_range. apply NoDup_fmap; [|apply NoDup_seq].
  intros a b. lia.
Qed.

(** X7.  [/rel] without an argument, from a whitelisted caller, answers once
    for every device of the machine, in order, "Released GPU i" where a
    block was held and "GPU i is not occupied" elsewhere, and leaves no
    reservation behind when all of them were for devices of the machine. *)
Theorem release_all_empties (w : world) (upd : update) (n : Z) (s : bot) :
  from_user_id upd ∈ _whitelist s →
  nvmlDeviceGetCount w = Ret n →
  let r := _release w upd [] s in
  outcome r = Ret tt
  ∧ replies (effects r) = release_reply s <$> py_range n
  ∧ _whitelist (final r) = _whitelist s
  ∧ interval (final r) = interval s
  ∧ (buffers_in_range n s → cuda_buffers (final r) = ∅).
Proof.
  intros Hw Hc r.
  assert (Er : r = (outcome (release_all (py_range n) s),
                    final (release_all (py_range n) s),
                    Print (from_user_username upd +:+ " tries to release some resources")
                    :: effects (release_all (py_range n) s))).
  { subst r. unfold _release, whitelisted. run.
    rewrite bool_decide_true by exact Hw. cbn [negb]. rewrite Hc.
    destruct (release_all (py_range n) s) as [[r1 s1] t1]. reflexivity. }
  rewrite Er. cbn [outcome final effects fst snd].
  destruct (release_all_run (py_range n) s (NoDup_py_range n)) as (Ho & Hr & Hb).
  destruct (release_all_final (py_range n) s) as (_ & Hwl & Hi & _).
  repeat split; try assumption.
  intros Hs. apply map_eq. intros g. rewrite Hb, lookup_empty.
  case_bool_decide as Hg; [reflexivity|].
  destruct (cuda_buffers s !! g) eqn:E; [|reflexivity].
  exfalso. apply Hg, elem_of_py_range, Hs. rewrite E. by eexists.
Qed.

Lemma release_all_empties_witness :
  let s1 := final (_occupy Sample.machine Sample.subscriber ["1"] Sample.fresh) in
  let r := _release Sample.machine Sample.subscriber [] s1 in
  outcome r = Ret tt
  ∧ replies (effects r) = ["GPU 0 is not occupied"; "Released GPU 1"]
  ∧ cuda_buffers (final r) = ∅.
Proof.
  intros s1 r.
  destruct (release_all_empties Sample.machine Sample.subscriber 2 s1)
    as (Ho & Hr & _ & _ & He).
  - apply (bool_decide_unpack _). vm_compute. exact I.
  - reflexivity.
  - split; [exact Ho|]. split; [exact Hr|]. apply He.
    apply (reachable_in_range 2 [1; 2; 3]).
    apply (reachable_step 2 [1; 2; 3] Sample.fresh occ); [|reflexivity].
    apply reachable_init.
Defined.

(** X8.  [/rel <id>] from a whitelisted caller, for an id under which a block
    is held: the block is dropped, the device is reset, the last reply is
    "Released GPU <id>", and the other reservations and the interval stay
    as they were. *)
Theorem release_frees_the_block (w : world) (upd : update) (arg : string)
    (gid n : Z) (b : device_array) (s : bot) :
  from_user_id upd ∈ _whitelist s →
  py_int arg = Ret gid →
  nvmlDeviceGetCount w = Ret n →
  cuda_buffers s !! gid = Some b →
  let r := _release w upd [arg] s in
  outcome r = Ret tt
  ∧ cuda_buffers (final r) = delete gid (cuda_buffers s)
  ∧ interval (final r) = interval s
  ∧ ResetDevice gid ∈ effects r
  ∧ last (replies (effects r)) = Some ("Released GPU " +:+ pretty gid).
Proof.
  intros Hw Hp Hc Hb r. subst r.
  rewrite (release_run w upd arg gid n s Hw Hp Hc).
  rewrite (release_one_present gid s b Hb).
  cbn [outcome final effects fst snd cuda_buffers interval].
  repeat split.
  - destruct (bool_decide (0 <= gid < n)); cbn; set_solver.
  - destruct (bool_decide (0 <= gid < n)); reflexivity.
Qed.

Lemma release_frees_the_block_witness :
  let s1 := final (_occupy Sample.machine Sample.subscriber ["1"] Sample.fresh) in
  let r := _release Sample.machine Sample.subscriber ["1"] s1 in
  outcome r = Ret tt
  ∧ cuda_buffers (final r) = delete 1 (cuda_buffers s1)
  ∧ interval (final r) = interval s1
  ∧ ResetDevice 1 ∈ effects r
  ∧ last (replies (effects r)) = Some "Released GPU 1".
Proof.
  intros s1 r.
  apply (release_frees_the_block Sample.machine Sample.subscriber "1" 1 2
           {| nbytes := 16320875724 |} s1).
  - apply (bool_decide_unpack _). vm_compute. exact I.
  - reflexivity.
  - reflexivity.
  - vm_compute. reflexivity.
Defined.

(** ** Occupying, continued *)




(** X10.  [/occ <id>] changes nothing but the reservation of that device: when
    the allocation succeeds the block is stored under the id, replacing a
    block stored there before; when it fails the state is unchanged.  The
    other reservations, the whitelist and the interval are never touched. *)
Theorem occupy_stores_under_the_id (w : world) (upd : update) (arg : string)
    (gid n : Z) (h : handle) (info : memory_info) (s : bot) :
  from_user_id upd ∈ _whitelist s →
  py_int arg = Ret gid →
  nvmlDeviceGetCount w = Ret n →
  0 <= gid < n →
  nvmlDeviceGetHandleByIndex w gid = Ret h →
  nvmlDeviceGetMemoryInfo h = Ret info →
  let r := _occupy w upd [arg] s in
  let to_alloc := scale (free info) (PyFloat.literal 95 100) in
  _whitelist (final r) = _whitelist s
  ∧ interval (final r) = interval s
  ∧ (∀ g, g ≠ gid → cuda_buffers (final r) !! g = cuda_buffers s !! g)
  ∧ (∀ buffer, cuda_device_array w 0 to_alloc = Ret buffer →
               cuda_buffers (final r) = <[gid := buffer]> (cuda_buffers s))
  ∧ (∀ e, cuda_device_array w 0 to_alloc = Raise e → final r = s).
Proof.
  intros Hw Hp Hc Hr Hh Hi r to_alloc. subst r.
  rewrite (occupy_run w upd arg gid n h info s Hw Hp Hc Hr Hh Hi).
  rewrite occupy_loop_run. fold to_alloc. cbn [final fst snd].
  destruct (cuda_device_array w 0 to_alloc) as [b|e] eqn:E.
  - cbn. repeat split; try done.
    + intros g Hg. by rewrite lookup_insert_ne.
    + intros buffer [= ->]. reflexivity.
  - destruct e; cbn; repeat split; try done; intros ? [=].
Qed.

Lemma occupy_stores_under_the_id_witness :
  let s1 := final (_occupy Sample.machine Sample.subscriber ["0"] Sample.fresh) in
  let r := _occupy Sample.machine Sample.subscriber ["0"] s1 in
  cuda_buffers s1 = {[ 0 := {| nbytes := 14280766259 |} ]}
  ∧ cuda_buffers (final r) = {[ 0 := {| nbytes := 14280766259 |} ]}
  ∧ interval (final r) = 5.
Proof.
  intros s1 r. split; [vm_compute; reflexivity|].
  destruct (occupy_stores_under_the_id Sample.machine Sample.subscriber "0" 0 2
              (Sample.gpu (2 * Sample.GiB) [100])
              {| total := 16 * Sample.GiB; used := 2 * Sample.GiB;
                 free := 16 * Sample.GiB - 2 * Sample.GiB |} s1)
    as (_ & Hi & _ & Hst & _).
  - apply (bool_decide_unpack _). vm_compute. exact I.
  - reflexivity.
  - reflexivity.
  - lia.
  - reflexivity.
  - reflexivity.
  - split; [|exact Hi]. unfold r.
    rewrite (Hst {| nbytes := 14280766259 |}) by (vm_compute; reflexivity).
    vm_compute. reflexivity.
Defined.

(** ** Reading the devices *)

Section MapM.

Context {A B : Type} (f : A → result B).

(** [mapM] returns when every call returns, with the results in order. *)
Lemma mapM_Ret (l : list A) (k : list B) :
  mapM f l = Ret k ↔ Forall2 (λ x y, f x = Ret y) l k.
Proof.
  revert k. induction l as [|x l IH]; intros k; cbn [mapM].
  - split.
    + intros [= <-]. constructor.
    + intros H. inversion H. reflexivity.
  - split.
    + destruct (f x) as [y|e] eqn:Ex; cbn; [|discriminate].
      destruct (mapM f l) as [k'|e] eqn:El; cbn; [|discriminate].
      intros [= <-]. constructor; [exact Ex|]. by apply IH.
    + intros H. inversion H as [|? y ? k' Hx Hl]; subst.
      rewrite Hx. cbn. apply IH in Hl. rewrite Hl. reflexivity.
Qed.

(** [mapM] raises what the first failing call raises. *)
Lemma mapM_Raise (before after : list A) (x : A) (e : exn) :
  Forall (λ y, ∃ z, f y = Ret z) before →
  f x = Raise e →
  mapM f (before ++ x :: after) = Raise e.
Proof.
  intros Hb Hx. induction Hb as [|y before [z Hy] _ IH]; cbn [app mapM].
  - rewrite Hx. reflexivity.
  - rewrite Hy. cbn. rewrite IH. reflexivity.
Qed.

End MapM.

Lemma gpu_state_label (w : world) (h : handle) (label : string) :
  gpu_state w h = Ret label → label = AVAILABLE ∨ is_OCCUPIED label = true.
Proof.
  unfold gpu_state.
  destruct (nvmlDeviceGetMemoryInfo h) as [info|]; cbn; [|discriminate].
  destruct (PyFloat.gtb_int _ _).
  - destruct (get_user_info w h) as [us|]; cbn; [|discriminate].
    intros [= <-]. right. apply is_OCCUPIED_OCCUPIED.
  - intros [= <-]. by left.
Qed.

(** X11.  When [_query_once] returns, it returns one label per handle, each
    either AVAILABLE or OCCUPIED by some users, and the report built from
    exactly these labels. *)
Theorem query_once_one_label_per_device (w : world) (handles : list handle)
    (new_states : list string) (msg : string) :
  _query_once w handles = Ret (new_states, msg) →
  length new_states = length handles
  ∧ Forall (λ label, label = AVAILABLE ∨ is_OCCUPIED label = true) new_states
  ∧ msg = report (strftime w) new_states.
Proof.
  unfold _query_once.
  destruct (mapM (gpu_state w) handles) as [labels|] eqn:E; cbn; [|discriminate].
  intros [= <- <-]. apply mapM_Ret in E.
  split; [symmetry; by eapply Forall2_length|]. split; [|reflexivity].
  induction E as [|h label hs labels Hl _ IH]; constructor; [|exact IH].
  by eapply gpu_state_label.
Qed.

Lemma query_once_one_label_per_device_witness :
  length ["🤡OCCUPIED by alice💸"; "🚀AVAILABLE"]
  = length [Sample.gpu (2 * Sample.GiB) [100]; Sample.gpu 0 []]
  ∧ Forall (λ label, label = AVAILABLE ∨ is_OCCUPIED label = true)
           ["🤡OCCUPIED by alice💸"; "🚀AVAILABLE"].
Proof.
  destruct (query_once_one_label_per_device Sample.machine
              [Sample.gpu (2 * Sample.GiB) [100]; Sample.gpu 0 []]
              ["🤡OCCUPIED by alice💸"; "🚀AVAILABLE"]
              (report "2024-01-01 00:00:00"
                      ["🤡OCCUPIED by alice💸"; "🚀AVAILABLE"]))
    as (Hl & Hf & _).
  - vm_compute. reflexivity.
  - split; assumption.
Defined.

(** X12.  The processes of a device are only looked up when the device is above
    the threshold: on a machine whose devices all use at most 1 GiB,
    [_query_once] returns AVAILABLE for every device even if the list of
    processes of a device cannot be read. *)
Theorem query_once_idle_machine (w : world) (handles : list handle) :
  Forall (λ h, ∃ info, nvmlDeviceGetMemoryInfo h = Ret info
                       ∧ used info <= 2 ^ 30) handles →
  _query_once w handles
  = Ret (replicate (length handles) AVAILABLE,
         report (strftime w) (replicate (length handles) AVAILABLE)).
Proof.
  intros H. unfold _query_once.
  assert (E : mapM (gpu_state w) handles
              = Ret (replicate (length handles) AVAILABLE)).
  { apply mapM_Ret. induction H as [|h hs (info & Hm & Hu) _ IH]; cbn.
    - constructor.
    - constructor; [|exact IH]. by apply (gpu_state_low w h info). }
  rewrite E. reflexivity.
Qed.

Lemma query_once_idle_machine_witness :
  let h := {| nvmlDeviceGetMemoryInfo :=
                Ret {| total := 2 ^ 34; used := 2 ^ 30; free := 15 * 2 ^ 30 |};
              nvmlDeviceGetComputeRunningProcesses :=
                Raise (NVMLError "GPU is lost") |} in
  fst <$> _query_once Sample.machine [h; h] = Ret ["🚀AVAILABLE"; "🚀AVAILABLE"].
Proof.
  intros h. rewrite (query_once_idle_machine Sample.machine [h; h]).
  - reflexivity.
  - repeat constructor; eexists; (split; [reflexivity|cbn; lia]).
Defined.

(** X13.  [_query_once] gives up at the first device that cannot be read, and
    raises that device's error, whatever the later devices are: the error
    of its memory query, or, when the device is above the threshold, the
    error of the lookup of its processes. *)
Theorem query_once_first_error (w : world) (before after : list handle)
    (h : handle) (e : exn) :
  Forall (λ h', ∃ label, gpu_state w h' = Ret label) before →
  (nvmlDeviceGetMemoryInfo h = Raise e
   ∨ ∃ info, nvmlDeviceGetMemoryInfo h = Ret info
             ∧ 2 ^ 30 < used info
             ∧ get_user_info w h = Raise e) →
  _query_once w (before ++ h :: after) = Raise e.
Proof.
  intros Hb He. unfold _query_once.
  rewrite (mapM_Raise (gpu_state w) before after h e Hb); [reflexivity|].
  unfold gpu_state. destruct He as [Hm|(info & Hm & Hu & Hp)]; rewrite Hm.
  - reflexivity.
  - cbn [mbind result_bind]. rewrite used_gb_gt_thresh.
    destruct (Z.ltb_spec (2 ^ 30) (used info)); [|lia].
    rewrite Hp. reflexivity.
Qed.

Lemma query_once_first_error_witness :
  _query_once Sample.machine [Sample.gpu 0 []; Sample.lost; Sample.gpu 0 []]
  = Raise (NVMLError "GPU is lost").
Proof.
  apply (query_once_first_error Sample.machine [Sample.gpu 0 []] [Sample.gpu 0 []]
           Sample.lost (NVMLError "GPU is lost")).
  - repeat constructor. eexists. vm_compute. reflexivity.
  - left. reflexivity.
Defined.

(** ** The poll loop, continued *)

Lemma broadcast_frame (w : world) (recipients : list Z) (msg : string)
    (markdown : bool) (s : bot) :
  final (broadcast w recipients msg markdown s) = s
  ∧ Forall poller_effect (effects (broadcast w recipients msg markdown s)).
Proof.
  induction recipients as [|c rest [IHf IHe]]; [by split; [|constructor]|].
  cbn [broadcast]. rewrite bind_run. unfold try_except, send. run.
  destruct (send_message w c msg markdown) as [[]|e]; run.
  - destruct (broadcast w rest msg markdown s) as [[r s1] t1].
    cbn in *. split; [done|]. by constructor.
  - destruct (is_Unauthorized e); run.
    + destruct (broadcast w rest msg markdown s) as [[r s1] t1].
      cbn in *. split; [done|]. by repeat constructor.
    + split; [done|]. by repeat constructor.
Qed.

Lemma poll_cycle_frame (w : world) (old_states : list (option string)) (s : bot) :
  final (poll_cycle w old_states s) = s
  ∧ (∃ t, effects (poll_cycle w old_states s) = Sleep (interval s) :: t)
  ∧ Forall poller_effect (effects (poll_cycle w old_states s)).
Proof.
  unfold poll_cycle. run.
  destruct (get_handles w) as [hs|e]; run;
    [|split; [done|]; split; [by eexists|by repeat constructor]].
  destruct (_query_once w hs) as [[new msg]|e].
  - destruct (bool_decide (Some <$> new ≠ old_states)); run.
    + destruct (broadcast_frame w (_whitelist s) msg true s) as [Hf He].
      destruct (broadcast w (_whitelist s) msg true s) as [[[[]|e] s1] t1];
        cbn in *; (split; [done|]); (split; [by eexists|]);
        constructor; try done; rewrite ?app_nil_r; done.
    + split; [done|]. split; [by eexists|]. by repeat constructor.
  - run.
    destruct (broadcast_frame w (_whitelist s) (format_exc e) false s) as [Hf He].
    destruct (broadcast w (_whitelist s) (format_exc e) false s)
      as [[[[]|e'] s1] t1];
      cbn in *; (split; [done|]); (split; [by eexists|]);
      repeat constructor; rewrite ?app_nil_r; done.
Qed.

(** X14.  The poll loop only sleeps, prints and sends: however many turns it
    runs and whatever happens in them, it never replies to a command,
    never selects, resets or allocates a device, and leaves the whitelist,
    the reservations and the interval as they are. *)
Theorem poll_loop_frame (ws : list world) (old_states : list (option string))
    (s : bot) :
  final (poll_loop ws old_states s) = s
  ∧ Forall poller_effect (effects (poll_loop ws old_states s))
  ∧ replies (effects (poll_loop ws old_states s)) = [].
Proof.
  assert (H : final (poll_loop ws old_states s) = s
              ∧ Forall poller_effect (effects (poll_loop ws old_states s))).
  { revert old_states. induction ws as [|w ws IH]; intros old_states.
    - cbn. split; [done|constructor].
    - cbn [poll_loop]. rewrite bind_run.
      destruct (poll_cycle_frame w old_states s) as (Hf & _ & He).
      destruct (poll_cycle w old_states s) as [[[old'|e] s1] t1];
        cbn in Hf, He; subst s1; cbn [outcome final effects fst snd].
      + destruct (IH old') as [IHf IHe]. split; [exact IHf|].
        apply Forall_app. by split.
      + by split. }
  destruct H as [Hf He]. split; [exact Hf|]. split; [exact He|].
  induction He as [|e t He _ IH]; [reflexivity|].
  destruct e; cbn in He; try done; exact IH.
Qed.

(** While the labels stay what they were, the loop stays silent: turns in
    which the devices read as the stored labels only sleep. *)
Lemma poll_loop_unchanged (ws : list world) (labels : list string) (s : bot) :
  Forall (reads labels) ws →
  poll_loop ws (Some <$> labels) s
  = (Ret (Some <$> labels), s, (λ _, Sleep (interval s)) <$> ws).
Proof.
  intros H. induction H as [|w ws (hs & msg & Hh & Hq) _ IH]; [reflexivity|].
  cbn [poll_loop]. rewrite bind_run.
  rewrite (poll_cycle_run w (Some <$> labels) hs labels msg s Hh Hq).
  rewrite bool_decide_false by (intros Hne; by apply Hne).
  rewrite IH. reflexivity.
Qed.

(** X15.  A change is announced once: over any number of turns in which the
    devices read as the same labels, the report is sent in the first turn,
    to every whitelist entry, if the labels differ from the stored ones,
    and nothing is sent after that. *)
Theorem poll_loop_notifies_once (w : world) (rest : list world)
    (old_states : list (option string)) (handles : list handle)
    (labels : list string) (msg : string) (s : bot) :
  get_handles w = Ret handles →
  _query_once w handles = Ret (labels, msg) →
  Forall (reads labels) rest →
  transport_up w (_whitelist s) msg true →
  let r := poll_loop (w :: rest) old_states s in
  outcome r = Ret (Some <$> labels)
  ∧ sends (effects r)
    = if bool_decide (Some <$> labels ≠ old_states)
      then sent_to msg true <$> _whitelist s
      else [].
Proof.
  intros Hh Hq Hrest Hup r. subst r.
  cbn [poll_loop]. rewrite bind_run.
  rewrite (poll_cycle_run w old_states handles labels msg s Hh Hq).
  assert (Hquiet : ∀ t, sends (t ++ ((λ _, Sleep (interval s)) <$> rest)) = sends t).
  { intros t. rewrite sends_app.
    replace (sends ((λ _, Sleep (interval s)) <$> rest)) with (@nil (Z * string * bool));
      [apply app_nil_r|].
    clear. induction rest; [reflexivity|assumption]. }
  case_bool_decide as Hd.
  - rewrite (broadcast_run w (_whitelist s) msg true s Hup).
    cbn [outcome final effects fst snd].
    rewrite (poll_loop_unchanged rest labels s Hrest).
    cbn [outcome final effects fst snd]. split; [reflexivity|].
    rewrite Hquiet.
    change (Sleep (interval s) :: ?t) with ([Sleep (interval s)] ++ t).
    rewrite sends_app, sends_broadcast_trace. reflexivity.
  - rewrite <- Hd.
    rewrite (poll_loop_unchanged rest labels s Hrest).
    cbn [outcome final effects fst snd]. split; [reflexivity|].
    rewrite Hquiet. reflexivity.
Qed.

Lemma poll_loop_notifies_once_witness :
  let r := poll_loop [Sample.machine; Sample.machine; Sample.machine]
                     (sentinel 2) Sample.fresh in
  outcome r = Ret [Some "🤡OCCUPIED by alice💸"; Some "🚀AVAILABLE"]
  ∧ chat <$> sends (effects r) = [1; 2; 3].
Proof.
  intros r.
  destruct (poll_loop_notifies_once Sample.machine
              [Sample.machine; Sample.machine] (sentinel 2)
              [Sample.gpu (2 * Sample.GiB) [100]; Sample.gpu 0 []]
              ["🤡OCCUPIED by alice💸"; "🚀AVAILABLE"]
              (report "2024-01-01 00:00:00"
                      ["🤡OCCUPIED by alice💸"; "🚀AVAILABLE"])
              Sample.fresh) as [Ho Hs].
  - reflexivity.
  - vm_compute. reflexivity.
  - repeat constructor; eexists _, _; (split; [reflexivity|vm_compute; reflexivity]).
  - intros c _. by left.
  - split; [exact Ho|]. fold r in Hs. rewrite Hs. reflexivity.
Defined.

(** X16.  A new interval is used from the next turn on: after a valid
    [/set_interval <n>], the next turn of the loop begins by sleeping [n]
    seconds. *)
Theorem set_interval_then_poll (w w' : world) (upd : update) (arg : string)
    (n : Z) (old_states : list (option string)) (s : bot) :
  from_user_id upd ∈ _whitelist s →
  py_int arg = Ret n →
  1 <= n <= 3600 →
  head (effects (poll_cycle w' old_states
                   (final (_set_interval w upd [arg] s))))
  = Some (Sleep n).
Proof.
  intros Hw Hp Hn.
  destruct (poll_cycle_frame w' old_states (final (_set_interval w upd [arg] s)))
    as (_ & [t ->] & _).
  cbn [head]. do 2 f_equal.
  unfold _set_interval, whitelisted. run.
  rewrite bool_decide_true by exact Hw. cbn [negb]. rewrite Hp.
  destruct (Z.ltb_spec n 1); [lia|].
  destruct (Z.gtb_spec n (60 * 60)); [lia|]. reflexivity.
Qed.

Lemma set_interval_then_poll_witness :
  head (effects (poll_cycle Sample.machine (sentinel 2)
                   (final (_set_interval Sample.machine Sample.subscriber
                             ["60"] Sample.fresh))))
  = Some (Sleep 60).
Proof.
  apply (set_interval_then_poll Sample.machine Sample.machine Sample.subscriber
           "60" 60 (sentinel 2) Sample.fresh).
  - apply (bool_decide_unpack _). vm_compute. exact I.
  - reflexivity.
  - lia.
Defined.

(** X17.  A delivery error other than [Unauthorized] cuts a broadcast short:
    the chats before the failing one and the failing one have been written
    to, in order, the chats after it have not, and the error leaves the
    loop. *)
Theorem broadcast_stops_at_transport_error (w : world) (before after : list Z)
    (c : Z) (msg : string) (markdown : bool) (e : exn) (s : bot) :
  transport_up w before msg markdown →
  send_message w c msg markdown = Raise e →
  is_Unauthorized e = false →
  let r := broadcast w (before ++ c :: after) msg markdown s in
  outcome r = Raise e
  ∧ final r = s
  ∧ sends (effects r) = sent_to msg markdown <$> (before ++ [c]).
Proof.
  intros Hup Hc He r. subst r.
  rewrite (broadcast_interrupted w before after c msg markdown e s Hup Hc He).
  cbn [outcome final effects fst snd]. split; [reflexivity|].
  split; [reflexivity|].
  rewrite sends_app, sends_broadcast_trace, fmap_app. reflexivity.
Qed.

Lemma broadcast_stops_at_transport_error_witness :
  let w := Sample.with_transport Sample.machine (Sample.fails_at 2) in
  let r := broadcast w [1; 2; 3] "hello" false Sample.fresh in
  outcome r = Raise (TelegramError "NetworkError")
  ∧ final r = Sample.fresh
  ∧ sends (effects r) = [(1, "hello", false); (2, "hello", false)].
Proof.
  intros w r.
  apply (broadcast_stops_at_transport_error w [1] [3] 2 "hello" false
           (TelegramError "NetworkError") Sample.fresh).
  - intros c Hc. left. apply list_elem_of_singleton in Hc as ->. reflexivity.
  - reflexivity.
  - reflexivity.
Defined.

(** ** The usage message *)

Lemma format_0f (x : Q) :
  PyFormat.format_float x ".0f" = Ret (PyFormat.fixed x 0).
Proof. reflexivity. Qed.

(** X18.  [get_usage_msg] returns a message exactly when the device reports a
    total memory other than 0 and its processes can be looked up; with a
    total of 0 the bar divides by zero. *)
Theorem usage_msg_errors (w : world) (gpu_id : Z) (h : handle)
    (info : memory_info) :
  nvmlDeviceGetMemoryInfo h = Ret info →
  (total info = 0 → get_usage_msg w gpu_id h = Raise ZeroDivisionError)
  ∧ ((∃ msg, get_usage_msg w gpu_id h = Ret msg)
     ↔ total info ≠ 0 ∧ ∃ uinfos, get_user_info w h = Ret uinfos).
Proof.
  intros Hm. unfold get_usage_msg. rewrite Hm. cbn [mbind result_bind].
  rewrite !format_0f. cbn [mbind result_bind].
  destruct (total info) as [|p|p] eqn:Et.
  - split; [reflexivity|]. split; [intros [msg [=]]|intros [[] _]; reflexivity].
  - split; [discriminate|]. unfold pbar. rewrite pbar_sep_pos.
    cbn [mbind result_bind].
    destruct (get_user_info w h) as [us|e]; cbn [mbind result_bind].
    + split; [intros _; split; [discriminate|by eexists]|intros _; by eexists].
    + split; [intros [msg [=]]|intros [_ [us [=]]]].
  - split; [discriminate|]. unfold pbar, pbar_sep, PyFloat.truediv.
    cbn [mbind result_bind].
    destruct (get_user_info w h) as [us|e]; cbn [mbind result_bind].
    + split; [intros _; split; [discriminate|by eexists]|intros _; by eexists].
    + split; [intros [msg [=]]|intros [_ [us [=]]]].
Qed.

Lemma usage_msg_errors_witness :
  let broken := {| nvmlDeviceGetMemoryInfo :=
                     Ret {| total := 0; used := 0; free := 0 |};
                   nvmlDeviceGetComputeRunningProcesses := Ret [] |} in
  get_usage_msg Sample.machine 0 broken = Raise ZeroDivisionError
  ∧ ∃ msg, get_usage_msg Sample.machine 1 (Sample.gpu 0 []) = Ret msg.
Proof.
  intros broken. split.
  - apply (usage_msg_errors Sample.machine 0 broken
             {| total := 0; used := 0; free := 0 |}); reflexivity.
  - apply (usage_msg_errors Sample.machine 1 (Sample.gpu 0 [])
             {| total := 16 * Sample.GiB; used := 0; free := 16 * Sample.GiB - 0 |});
      [reflexivity|]. split; [discriminate|]. by eexists.
Defined.

(** ** The on-demand commands *)

Lemma get_gpu_one_run (w : world) (i : Z) (s : bot) :
  get_gpu_one w i s
  = match usage w i with
    | Ret msg => (Ret tt, s, [ReplyText msg true])
    | Raise e => (Raise e, s, [])
    end.
Proof.
  unfold get_gpu_one, usage. run.
  destruct (nvmlDeviceGetHandleByIndex w i) as [h|e]; [|reflexivity].
  cbn [mbind result_bind].
  destruct (get_usage_msg w i h) as [msg|e]; reflexivity.
Qed.

Lemma get_gpu_loop_run (w : world) (before : list Z) (msgs : list string)
    (s : bot) :
  Forall2 (λ i msg, usage w i = Ret msg) before msgs →
  get_gpu_loop w before s = (Ret tt, s, (λ msg, ReplyText msg true) <$> msgs)
  ∧ ∀ i after e,
      usage w i = Raise e →
      get_gpu_loop w (before ++ i :: after) s
      = (Raise e, s, (λ msg, ReplyText msg true) <$> msgs).
Proof.
  intros H. induction H as [|j msg before msgs Hj _ [IH1 IH2]].
  - split; [reflexivity|]. intros i after e Hi.
    cbn [app get_gpu_loop]. rewrite bind_run, get_gpu_one_run, Hi. reflexivity.
  - split.
    + cbn [get_gpu_loop]. rewrite bind_run, get_gpu_one_run, Hj, IH1. reflexivity.
    + intros i after e Hi. cbn [app get_gpu_loop].
      rewrite bind_run, get_gpu_one_run, Hj, (IH2 i after e Hi). reflexivity.
Qed.

(** X19.  [/gpu] answers device by device: one formatted message per device,
    in order, when every device can be described; and when the
    description of a device raises, the messages of the devices before it
    have been sent, nothing follows, and the error leaves the handler. *)
Theorem get_gpu_replies_until_error (w : world) (upd : update) (n : Z)
    (before : list Z) (msgs : list string) (s : bot) :
  nvmlDeviceGetCount w = Ret n →
  Forall2 (λ i msg, usage w i = Ret msg) before msgs →
  (py_range n = before →
   _get_gpu w upd s
   = (Ret tt, s,
      Print (from_user_username upd +:+ " requested gpu usage")
      :: ((λ msg, ReplyText msg true) <$> msgs)))
  ∧ (∀ i after e,
       py_range n = before ++ i :: after →
       usage w i = Raise e →
       _get_gpu w upd s
       = (Raise e, s,
          Print (from_user_username upd +:+ " requested gpu usage")
          :: ((λ msg, ReplyText msg true) <$> msgs))).
Proof.
  intros Hc H. destruct (get_gpu_loop_run w before msgs s H) as [H1 H2].
  split.
  - intros E. unfold _get_gpu. run. rewrite Hc, E, H1. reflexivity.
  - intros i after e E Hi. unfold _get_gpu. run.
    rewrite Hc, E, (H2 i after e Hi). reflexivity.
Qed.

Lemma get_gpu_replies_until_error_witness :
  let w := Sample.with_devices Sample.machine [Sample.gpu 0 []; Sample.lost] in
  ∃ msg,
    usage w 0 = Ret msg
    ∧ _get_gpu w Sample.stranger Sample.fresh
      = (Raise (NVMLError "GPU is lost"), Sample.fresh,
         [Print "eve requested gpu usage"; ReplyText msg true]).
Proof.
  intros w. eexists. split; [vm_compute; reflexivity|].
  refine (proj2 (get_gpu_replies_until_error w Sample.stranger 2 [0] [_]
                   Sample.fresh _ _) 1 [] (NVMLError "GPU is lost") _ _).
  - reflexivity.
  - repeat constructor.
  - reflexivity.
  - reflexivity.
Defined.

Lemma release_all_effects (gids : list Z) (s : bot) :
  Forall command_effect (effects (release_all gids s)).
Proof.
  revert s. induction gids as [|g gids IH]; intros s; [constructor|].
  cbn [release_all]. rewrite bind_run.
  destruct (cuda_buffers s !! g) as [b|] eqn:E.
  - rewrite (release_one_present g s b E). cbn [outcome final effects fst snd].
    apply Forall_app. split; [by repeat constructor|apply IH].
  - rewrite (release_one_absent g s E). cbn [outcome final effects fst snd].
    apply Forall_app. split; [by repeat constructor|apply IH].
Qed.

(** X20.  A privileged command talks to the caller only: whatever the caller,
    the arguments and the answers of the driver and of the allocator, no
    command ever sends a message to a chat of the whitelist or sleeps. *)
Theorem commands_never_broadcast (c : command) (w : world) (upd : update)
    (args : list string) (s : bot) :
  Forall command_effect (effects (dispatch c w upd args s))
  ∧ sends (effects (dispatch c w upd args s)) = [].
Proof.
  assert (H : Forall command_effect (effects (dispatch c w upd args s))).
  { destruct c; cbn [dispatch].
    - unfold _occupy. run.
      destruct (whitelisted s (from_user_id upd)); cbn [negb];
        [|by repeat constructor].
      destruct args as [|arg [|? ?]]; try (by repeat constructor).
      destruct (py_int arg) as [gid|]; [|by repeat constructor].
      destruct (out_of_range w gid) as [[]|]; try (by repeat constructor).
      + destruct (nvmlDeviceGetCount w); by repeat constructor.
      + destruct (nvmlDeviceGetHandleByIndex w gid) as [h|];
          [|by repeat constructor].
        destruct (nvmlDeviceGetMemoryInfo h) as [info|];
          [|by repeat constructor].
        rewrite occupy_loop_run.
        destruct (cuda_device_array w 0 _) as [b|[]]; by repeat constructor.
    - unfold _release. run.
      destruct (whitelisted s (from_user_id upd)); cbn [negb];
        [|by repeat constructor].
      destruct args as [|arg [|? ?]]; [| |by repeat constructor].
      + destruct (nvmlDeviceGetCount w) as [n|]; [|by repeat constructor].
        pose proof (release_all_effects (py_range n) s) as He.
        destruct (release_all (py_range n) s) as [[r s1] t1].
        by constructor.
      + destruct (py_int arg) as [gid|]; [|by repeat constructor].
        pose proof (release_all_effects [gid] s) as He.
        destruct (out_of_range w gid) as [[]|]; [| |by repeat constructor].
        * destruct (nvmlDeviceGetCount w); [|by repeat constructor].
          run. destruct (release_all [gid] s) as [[r s1] t1].
          by repeat constructor.
        * run. destruct (release_all [gid] s) as [[r s1] t1].
          by repeat constructor.
    - unfold _set_interval. run.
      destruct (whitelisted s (from_user_id upd)); cbn [negb];
        [|by repeat constructor].
      destruct args as [|arg [|? ?]]; try (by repeat constructor).
      destruct (py_int arg) as [i|]; [|by repeat constructor].
      destruct ((i <? 1) || (i >? 60 * 60)); by repeat constructor. }
  split; [exact H|].
  induction H as [|e t He _ IH]; [reflexivity|].
  destruct e; cbn in He; try done; exact IH.
Qed.

(** X21.  [/start], [/echo], [/g] and [/gpu] never change the bot: not the
    whitelist, not the reservations, not the interval.  The last three do
    not look at the whitelist either: what they answer does not depend on
    the state of the bot. *)
Theorem open_commands_frame (w : world) (upd : update) (args : list string)
    (s : bot) :
  final (_register upd s) = s
  ∧ final (_echo upd args s) = s
  ∧ final (_get_gpu_quick w s) = s
  ∧ final (_get_gpu w upd s) = s
  ∧ ∀ s',
      (outcome (_echo upd args s'), effects (_echo upd args s'))
      = (outcome (_echo upd args s), effects (_echo upd args s))
      ∧ (outcome (_get_gpu_quick w s'), effects (_get_gpu_quick w s'))
        = (outcome (_get_gpu_quick w s), effects (_get_gpu_quick w s))
      ∧ (outcome (_get_gpu w upd s'), effects (_get_gpu w upd s'))
        = (outcome (_get_gpu w upd s), effects (_get_gpu w upd s)).
Proof.
  assert (Hloop : ∀ ids, ∃ r t, ∀ s1, get_gpu_loop w ids s1 = (r, s1, t)).
  { intros ids. induction ids as [|i ids (r & t & IH)].
    - by exists (Ret tt), [].
    - destruct (usage w i) as [msg|e] eqn:E.
      + exists r, (ReplyText msg true :: t). intros s1. cbn [get_gpu_loop].
        rewrite bind_run, get_gpu_one_run, E, IH. reflexivity.
      + exists (Raise e), []. intros s1. cbn [get_gpu_loop].
        rewrite bind_run, get_gpu_one_run, E. reflexivity. }
  assert (Hgpu : ∃ r t, ∀ s1, _get_gpu w upd s1 = (r, s1, t)).
  { unfold _get_gpu. run. destruct (nvmlDeviceGetCount w) as [n|e].
    - destruct (Hloop (py_range n)) as (r & t & H).
      eexists _, _. intros s1. rewrite H. reflexivity.
    - eexists _, _. intros s1. reflexivity. }
  assert (Hquick : ∃ r t, ∀ s1, _get_gpu_quick w s1 = (r, s1, t)).
  { unfold _get_gpu_quick. run. destruct (get_handles w) as [hs|e].
    - destruct (_query_once w hs) as [[new msg]|e];
        eexists _, _; intros s1; reflexivity.
    - eexists _, _. intros s1. reflexivity. }
  destruct Hgpu as (r1 & t1 & H1). destruct Hquick as (r2 & t2 & H2).
  split.
  { unfold _register. run. by destruct (whitelisted s (from_user_id upd)). }
  split.
  { unfold _echo. run. by destruct args as [|a [|? ?]]. }
  split; [by rewrite H2|]. split; [by rewrite H1|].
  intros s'. rewrite !H1, !H2. split; [|done].
  unfold _echo. run. by destruct args as [|a [|? ?]].
Qed.

(** ** The decoration of user names *)

Lemma decorate_marker (user : string) :
  ∃ marker, decorate user = user +:+ marker ∧ String.length marker = 4%nat.
Proof.
  unfold decorate.
  repeat match goal with
         | |- context [String.eqb user ?x] => destruct (String.eqb user x)
         end; eexists; (split; [reflexivity|reflexivity]).
Qed.

Lemma append_inj_prefix (a b x y : string) :
  String.length x = String.length y → a +:+ x = b +:+ y → a = b.
Proof.
  intros Hl. revert b. induction a as [|c a IH]; intros [|d b] E.
  - reflexivity.
  - exfalso. change (x = String d (b +:+ y)) in E.
    apply (f_equal String.length) in E.
    cbn [String.length] in E. rewrite length_append in E. lia.
  - exfalso. change (String c (a +:+ x) = y) in E.
    apply (f_equal String.length) in E.
    cbn [String.length] in E. rewrite length_append in E. lia.
  - change (String c (a +:+ x) = String d (b +:+ y)) in E.
    injection E as -> E. f_equal. by apply IH.
Qed.

Lemma decorate_inj (user1 user2 : string) :
  decorate user1 = decorate user2 → user1 = user2.
Proof.
  destruct (decorate_marker user1) as (m1 & -> & L1).
  destruct (decorate_marker user2) as (m2 & -> & L2).
  apply append_inj_prefix. congruence.
Qed.

(** X22.  The decoration keeps users apart: a decorated name is the user name
    followed by a marker of four bytes, so two different users never show
    under the same decorated name, whether the table knows them or not. *)
Theorem decorate_keeps_users_apart (user1 user2 : string) :
  user1 ≠ user2 → decorate user1 ≠ decorate user2.
Proof. intros Hne E. apply Hne. by apply decorate_inj. Qed.

Lemma decorate_keeps_users_apart_witness :
  decorate "ywei40" ≠ decorate "ywei4".
Proof. apply decorate_keeps_users_apart. discriminate. Defined.
